(** * nengo_examples: the notebooks' own code, embedded and checked

    The repository holds three Jupyter notebooks.  Their own code is small:
    two TensorNode adapter classes, a batch generator, one training cell with
    a download branch, a rule table and an input function.  Everything else
    is a call into nengo, nengo_dl, TensorFlow, numpy or matplotlib; those
    calls are kept as calls (logged, with outcomes the libraries decide). *)

From Stdlib Require Import ZArith Floats Ascii.
From stdpp Require Import gmap strings list fin_maps.

Local Open Scope Z_scope.

(** ** Python values the notebooks' own code manipulates *)

Module Py.

(** An exception, by class and message. *)
Record exn := Exn { exn_class : string; exn_msg : string }.

Definition IndexError : exn := Exn "IndexError" "list index out of range".
Definition NameError (v : string) : exn := Exn "NameError" v.
Definition AttributeError (a : string) : exn := Exn "AttributeError" a.

(** A computation that returns or raises. *)
Definition result (A : Type) : Type := exn + A.

(** [l[i]] on a list or tuple: a negative index counts from the end,
    anything out of range raises. *)
Definition index {A} (l : list A) (i : Z) : result A :=
  let j := if i <? 0 then Z.of_nat (length l) + i else i in
  if j <? 0 then inl IndexError
  else match l !! Z.to_nat j with
       | Some x => inr x
       | None => inl IndexError
       end.

(** [l[i:]]: a negative start counts from the end and is clipped at 0;
    a start past the end gives the empty list; never raises. *)
Definition slice_from {A} (l : list A) (i : Z) : list A :=
  let j := if i <? 0 then Z.max 0 (Z.of_nat (length l) + i) else i in
  drop (Z.to_nat j) l.

(** [float(i)] for a Python int within the 63-bit range. *)
Definition float_of_Z (i : Z) : float :=
  if i <? 0 then (- of_uint63 (Uint63.of_Z (- i)))%float
  else of_uint63 (Uint63.of_Z i).

(** the literals [0.001], [0.05], [0.9] as the nearest binary64 values *)
Definition lit_0_001 : float := 0x1.0624dd2f1a9fcp-10%float.
Definition lit_0_05 : float := 0x1.999999999999ap-5%float.
Definition lit_0_9 : float := 0x1.ccccccccccccdp-1%float.

End Py.

(** ** The file system the download branch sees

    [os], [urllib] and [zipfile] belong to Python, not to the notebook; what
    they do to files is written out here after their documentation: a map
    from paths to files, a new entry needing its directory. *)

Module OS.
Import Py.

Inductive File :=
| Dir
| Archive (members : list string)   (* a readable zip file and its member names *)
| Data.                             (* any other regular file *)

Abbreviation Fs := (gmap string File).

(** [os.path.join(a, b)] for relative, slash-free [b] *)
Definition path_join (a b : string) : string := a +:+ "/" +:+ b.

Fixpoint has_slash (p : string) : bool :=
  match p with
  | EmptyString => false
  | String c r => if Ascii.eqb c "/"%char then true else has_slash r
  end.

(** [os.path.dirname] *)
Fixpoint dirname (p : string) : string :=
  match p with
  | EmptyString => EmptyString
  | String c r => if has_slash r then String c (dirname r) else EmptyString
  end.

(** the directory a new entry at [p] goes into exists (the working
    directory, written [""], always does) *)
Definition parent_ok (fs : Fs) (p : string) : bool :=
  if String.eqb (dirname p) "" then true
  else match fs !! dirname p with Some Dir => true | _ => false end.

Definition path_exists (fs : Fs) (p : string) : bool :=
  match fs !! p with Some _ => true | None => false end.

Definition mkdir (fs : Fs) (p : string) : Fs * result unit :=
  if path_exists fs p then (fs, inl (Exn "FileExistsError" p))
  else if parent_ok fs p then (<[p := Dir]> fs, inr tt)
  else (fs, inl (Exn "FileNotFoundError" p)).

Definition remove (fs : Fs) (p : string) : Fs * result unit :=
  match fs !! p with
  | None => (fs, inl (Exn "FileNotFoundError" p))
  | Some Dir => (fs, inl (Exn "IsADirectoryError" p))
  | Some _ => (delete p fs, inr tt)
  end.

(** writing a regular file at [p] *)
Definition write_file (fs : Fs) (p : string) (f : File) : Fs * result unit :=
  match fs !! p with
  | Some Dir => (fs, inl (Exn "IsADirectoryError" p))
  | _ => if parent_ok fs p then (<[p := f]> fs, inr tt)
         else (fs, inl (Exn "FileNotFoundError" p))
  end.

(** [zipfile.ZipFile(p)] in read mode: the member list, or an error *)
Definition zip_open (fs : Fs) (p : string) : result (list string) :=
  match fs !! p with
  | None => inl (Exn "FileNotFoundError" p)
  | Some Dir => inl (Exn "IsADirectoryError" p)
  | Some Data => inl (Exn "BadZipFile" p)
  | Some (Archive ms) => inr ms
  end.

(** [f.extractall(dir)]: every member is written under [dir]; the first
    member that cannot be written stops the extraction. *)
Fixpoint extractall (fs : Fs) (dir : string) (members : list string)
  : Fs * result unit :=
  match members with
  | [] => (fs, inr tt)
  | m :: ms =>
      match write_file fs (path_join dir m) Data with
      | (fs', inr _) => extractall fs' dir ms
      | (fs', inl e) => (fs', inl e)
      end
  end.

End OS.

(** ** deeplearning/TF-Nengo-Autoencoders.ipynb *)

Module Autoencoder.
Import Py OS.

(** [LOADING = False], the flag as the notebook ships; the cell below takes
    the flag as its argument [loading]. *)
Definition LOADING : bool := false.

(** Network Parameters *)
Definition n_hidden_1 : Z := 256.
Definition n_hidden_2 : Z := 128.
Definition n_input : Z := 784.

(** The objects of [net]; two of them are dictionary keys in [gen_data]. *)
Inductive NengoObj := inp | tf_encode | tf_decode | input_probe | output_probe.

#[export] Instance NengoObj_eq_dec : EqDecision NengoObj.
Proof. solve_decision. Defined.

Definition NengoObj_code (o : NengoObj) : nat :=
  match o with
  | inp => 0 | tf_encode => 1 | tf_decode => 2
  | input_probe => 3 | output_probe => 4
  end%nat.

Definition NengoObj_decode (n : nat) : NengoObj :=
  match n with
  | 0 => inp | 1 => tf_encode | 2 => tf_decode
  | 3 => input_probe | _ => output_probe
  end%nat.

#[export] Instance NengoObj_countable : Countable NengoObj.
Proof.
  apply (inj_countable' NengoObj_code NengoObj_decode). by intros [].
Defined.

(** What nengo, nengo_dl, TensorFlow, numpy, urllib and the clock do is not
    the notebook's code: it is taken as given.  [Ext] is everything those
    libraries keep (the TensorFlow graph, the simulator, the clock, the
    network); a call may raise instead of returning.  Two calls are taken
    to be functions of their arguments alone: [np.asarray], and running a
    [PresentInput] process, which has no random part.  The exits of the two
    [with] blocks are taken not to raise. *)
Class Backend := {
  Image : Type;
  Array : Type;
  Tensor : Type;
  Loss : Type;
  Optimizer : Type;
  Ext : Type;
  (* nengo.processes.PresentInput(images, presentation_time).run(t) *)
  lib_present_input_run : list Image → float → float → result Array;
  (* np.asarray(list of arrays) *)
  lib_asarray : list Array → Array;
  (* tf.contrib.layers.fully_connected(x, num_outputs) *)
  lib_fully_connected : Ext → Tensor → Z → Ext * result Tensor;
  (* tf.train.MomentumOptimizer(learning_rate, momentum) *)
  lib_momentum_optimizer : float → float → Optimizer;
  (* nengo_dl.Simulator(net, step_blocks, minibatch_size), its __exit__ *)
  lib_simulator_new : Ext → Z → Z → Ext * result unit;
  lib_simulator_close : Ext → Ext;
  (* sim.loss(inputs, targets, objective) *)
  lib_sim_loss : Ext → gmap NengoObj Array → gmap NengoObj Array → string
                 → Ext * result Loss;
  (* sim.run(t) *)
  lib_sim_run : Ext → float → Ext * result unit;
  (* sim.train(inputs, targets, optimizer, n_epochs) *)
  lib_sim_train : Ext → gmap NengoObj Array → gmap NengoObj Array → Optimizer → Z
                  → Ext * result unit;
  (* sim.load_params(path), reading the files under [path] *)
  lib_sim_load_params : Ext → Fs → string → Ext * result unit;
  (* urlretrieve: what the URL delivers *)
  lib_fetch : Ext → string → Ext * result File;
  (* time.time() *)
  lib_time : Ext → Ext * float;
  (* losses[a] - losses[b] *)
  loss_sub : Loss → Loss → Loss;
}.

(** a Python dict keyed by objects of the network *)
Abbreviation Dict := (gmap NengoObj Array).

Section Notebook.
Context {B : Backend}.

(** [mnist = input_data.read_data_sets("MNIST_data", one_hot=True)] *)
Record Dataset := { train_images : list Image; test_images : list Image }.

(** What the cell prints. *)
Inductive Printed :=
| PLosses (ls : list Loss)                (* print(losses) *)
| PDelta (d : Loss)                       (* "delta: " + str(d) *)
| PProgress (i n : Z)                     (* str(i) + "/" + str(n) *)
| PEta (minutes : float).                 (* "ETA: ~" + str(m) + " minutes" *)

(** Every call that leaves the notebook's own code. *)
Inductive Call :=
| c_fully_connected (x : Tensor) (num_outputs : Z)
| c_PresentInput_run (images : list Image) (presentation_time t : float)
| c_asarray (arrays : list Array)
| c_MomentumOptimizer (learning_rate momentum : float)
| c_Simulator (step_blocks minibatch_size : Z)
| c_Simulator_exit
| c_sim_loss (inputs targets : Dict) (objective : string)
| c_sim_run (t : float)
| c_sim_train (inputs targets : Dict) (n_epochs : Z)
| c_sim_load_params (path : string)
| c_path_exists (path : string)
| c_mkdir (path : string)
| c_urlretrieve (url path : string)
| c_ZipFile (path : string)
| c_extractall (dir : string)
| c_ZipFile_exit
| c_remove (path : string)
| c_time
| c_print (what : Printed).

(** A logged call: what was called and, if it raised, what it raised. *)
Definition Entry : Type := Call * option exn.

Record World := { w_fs : Fs; w_ext : Ext; w_log : list Entry }.

(** Notebook code: it runs in a world and returns or raises. *)
Definition M (A : Type) : Type := World → World * result A.

Definition ret {A} (a : A) : M A := λ w, (w, inr a).
Definition raise {A} (e : exn) : M A := λ w, (w, inl e).
Definition bind {A C} (m : M A) (k : A → M C) : M C :=
  λ w, match m w with
       | (w', inr a) => k a w'
       | (w', inl e) => (w', inl e)
       end.

#[export] Instance M_ret : MRet M := @ret.
#[export] Instance M_bind : MBind M := λ A C k m, bind m k.

Definition lift {A} (r : result A) : M A :=
  match r with inr a => ret a | inl e => raise e end.

Definition outcome {A} (r : result A) : option exn :=
  match r with inl e => Some e | inr _ => None end.

(** A library call: the library acts on the file system and on its own
    state, and the call is logged with its outcome. *)
Definition call {A} (c : Call) (sem : Fs → Ext → Fs * Ext * result A) : M A :=
  λ w, let '(fs', ext', r) := sem (w_fs w) (w_ext w) in
       ({| w_fs := fs'; w_ext := ext'; w_log := w_log w ++ [(c, outcome r)] |}, r).

(** [with ... :] around [body]: the exit runs whether [body] returns or
    raises, and what [body] raised is raised again. *)
Definition finally {A} (body : M A) (exit : M unit) : M A :=
  λ w, let '(w1, r) := body w in (fst (exit w1), r).

(** [for i in range(start, start + n)] threading the variables [s] *)
Fixpoint for_range {S} (body : Z → S → M S) (start : Z) (n : nat) (s : S) : M S :=
  match n with
  | O => ret s
  | Datatypes.S n' => s' ← body start s; for_range body (start + 1) n' s'
  end.

(** *** the library calls the notebook makes *)

Definition fully_connected (x : Tensor) (num_outputs : Z) : M Tensor :=
  call (c_fully_connected x num_outputs)
       (λ fs ext, let '(ext', r) := lib_fully_connected ext x num_outputs in (fs, ext', r)).

Definition PresentInput_run (images : list Image) (pt t : float) : M Array :=
  call (c_PresentInput_run images pt t)
       (λ fs ext, (fs, ext, lib_present_input_run images pt t)).

Definition asarray (l : list Array) : M Array :=
  call (c_asarray l) (λ fs ext, (fs, ext, inr (lib_asarray l))).

Definition MomentumOptimizer (lr m : float) : M Optimizer :=
  call (c_MomentumOptimizer lr m) (λ fs ext, (fs, ext, inr (lib_momentum_optimizer lr m))).

Definition Simulator (step_blocks minibatch_size : Z) : M unit :=
  call (c_Simulator step_blocks minibatch_size)
       (λ fs ext, let '(ext', r) := lib_simulator_new ext step_blocks minibatch_size in
                  (fs, ext', r)).

Definition Simulator_exit : M unit :=
  call c_Simulator_exit (λ fs ext, (fs, lib_simulator_close ext, inr tt)).

Definition sim_loss (i o : Dict) (objective : string) : M Loss :=
  call (c_sim_loss i o objective)
       (λ fs ext, let '(ext', r) := lib_sim_loss ext i o objective in (fs, ext', r)).

Definition sim_run (t : float) : M unit :=
  call (c_sim_run t) (λ fs ext, let '(ext', r) := lib_sim_run ext t in (fs, ext', r)).

Definition sim_train (i o : Dict) (opt : Optimizer) (n_epochs : Z) : M unit :=
  call (c_sim_train i o n_epochs)
       (λ fs ext, let '(ext', r) := lib_sim_train ext i o opt n_epochs in (fs, ext', r)).

Definition sim_load_params (path : string) : M unit :=
  call (c_sim_load_params path)
       (λ fs ext, let '(ext', r) := lib_sim_load_params ext fs path in (fs, ext', r)).

Definition os_path_exists (p : string) : M bool :=
  call (c_path_exists p) (λ fs ext, (fs, ext, inr (path_exists fs p))).

Definition os_mkdir (p : string) : M unit :=
  call (c_mkdir p) (λ fs ext, let '(fs', r) := mkdir fs p in (fs', ext, r)).

Definition os_remove (p : string) : M unit :=
  call (c_remove p) (λ fs ext, let '(fs', r) := remove fs p in (fs', ext, r)).

Definition urlretrieve (url p : string) : M unit :=
  call (c_urlretrieve url p)
       (λ fs ext, match lib_fetch ext url with
                  | (ext', inl e) => (fs, ext', inl e)
                  | (ext', inr f) => let '(fs', r) := write_file fs p f in (fs', ext', r)
                  end).

Definition ZipFile (p : string) : M (list string) :=
  call (c_ZipFile p) (λ fs ext, (fs, ext, zip_open fs p)).

Definition ZipFile_extractall (f : list string) (dir : string) : M unit :=
  call (c_extractall dir)
       (λ fs ext, let '(fs', r) := extractall fs dir f in (fs', ext, r)).

Definition ZipFile_exit : M unit :=
  call c_ZipFile_exit (λ fs ext, (fs, ext, inr tt)).

Definition time_time : M float :=
  call c_time (λ fs ext, let '(ext', t) := lib_time ext in (fs, ext', inr t)).

Definition print (what : Printed) : M unit :=
  call (c_print what) (λ fs ext, (fs, ext, inr tt)).

(** *** class Encoder / class Decoder *)

(** The instance attributes [pre_build] sets; [None] until then. *)
Record Adapter := {
  n_mini : option Z;
  size_in : option Z;
  size_out : option Z;
}.

Definition new_Adapter : Adapter :=
  {| n_mini := None; size_in := None; size_out := None |}.

(** [pre_build(self, shape_in, shape_out)], the same in both classes: the
    three assignments in order, so an index error leaves the earlier
    attributes set. *)
Definition pre_build (self : Adapter) (shape_in shape_out : list Z)
  : Adapter * result unit :=
  match index shape_in 0 with
  | inl e => (self, inl e)
  | inr a =>
      let self1 := {| n_mini := Some a; size_in := size_in self;
                      size_out := size_out self |} in
      match index shape_in 1 with
      | inl e => (self1, inl e)
      | inr b =>
          let self2 := {| n_mini := n_mini self1; size_in := Some b;
                          size_out := size_out self1 |} in
          match index shape_out 1 with
          | inl e => (self2, inl e)
          | inr c => ({| n_mini := n_mini self2; size_in := size_in self2;
                         size_out := Some c |}, inr tt)
          end
      end
  end.

Definition Encoder_call (self : Adapter) (t : float) (x : Tensor) : M Tensor :=
  dense ← fully_connected x n_hidden_1;
  dense ← fully_connected dense n_hidden_2;
  mret dense.

Definition Decoder_call (self : Adapter) (t : float) (x : Tensor) : M Tensor :=
  dense ← fully_connected x n_hidden_1;
  so ← match size_out self with
       | Some n => mret n
       | None => raise (AttributeError "size_out")
       end;
  dense ← fully_connected dense so;
  mret dense.

(** *** [net] *)

Record TensorNode := {
  tn_class : string;
  tn_size_in : Z;
  tn_size_out : Z;
  tn_label : string;
}.

Definition tf_encode_node : TensorNode :=
  {| tn_class := "Encoder"; tn_size_in := 28 * 28;
     tn_size_out := n_hidden_2; tn_label := "H1" |}.

Definition tf_decode_node : TensorNode :=
  {| tn_class := "Decoder"; tn_size_in := n_hidden_2;
     tn_size_out := n_input; tn_label := "H2" |}.

Definition connections : list (NengoObj * NengoObj) :=
  [(inp, tf_encode); (tf_encode, tf_decode)].

Definition probes : list (NengoObj * NengoObj) :=
  [(input_probe, inp); (output_probe, tf_decode)].

(** *** gen_data *)

Variable mnist : Dataset.

Definition gen_data (steps batchsize pos : Z) : M (Dict * Dict) :=
  input_array ←
    for_range
      (λ k input_array,
         a ← PresentInput_run (slice_from (train_images mnist) (pos + k))
                              (lit_0_001 * float_of_Z steps)%float
                              (lit_0_001 * float_of_Z steps)%float;
         mret (input_array ++ [a]))
      0 (Z.to_nat batchsize) [];
  in_array ← asarray input_array;
  let in_dict : Dict := {[ inp := in_array ]} in
  out_array ← asarray input_array;
  let out_dict : Dict := {[ output_probe := out_array ]} in
  mret (in_dict, out_dict).

(** *** the training cell *)

Definition n_examples : Z := 64.
(** [int(55000/(n_examples))]: the quotient 859.375 is exact in binary64
    and [int] truncates it. *)
Definition n_iters : Z := 55000 `quot` n_examples.
Definition learning_rate : float := lit_0_05.
Definition steps : Z := 10.
Definition repetitions : Z := 15.

(** [delta] starts as the int 1 and later holds a difference of losses. *)
Inductive Num := NInt (z : Z) | NLoss (x : Loss).

(** The variables the cell assigns. *)
Record Vars := {
  losses : list Loss;
  start_time : float;
  round_time : float;
  counted : Z;
  delta : Num;
  old_delta : option Num;               (* unbound until first assigned *)
  dicts : option (Dict * Dict);         (* input_dict, output_dict *)
}.

Definition set_losses (v : Vars) (x : list Loss) : Vars :=
  {| losses := x; start_time := start_time v; round_time := round_time v;
     counted := counted v; delta := delta v; old_delta := old_delta v;
     dicts := dicts v |}.
Definition set_start_time (v : Vars) (x : float) : Vars :=
  {| losses := losses v; start_time := x; round_time := round_time v;
     counted := counted v; delta := delta v; old_delta := old_delta v;
     dicts := dicts v |}.
Definition set_round_time (v : Vars) (x : float) : Vars :=
  {| losses := losses v; start_time := start_time v; round_time := x;
     counted := counted v; delta := delta v; old_delta := old_delta v;
     dicts := dicts v |}.
Definition set_counted (v : Vars) (x : Z) : Vars :=
  {| losses := losses v; start_time := start_time v; round_time := round_time v;
     counted := x; delta := delta v; old_delta := old_delta v;
     dicts := dicts v |}.
Definition set_delta (v : Vars) (old x : Num) : Vars :=
  {| losses := losses v; start_time := start_time v; round_time := round_time v;
     counted := counted v; delta := x; old_delta := Some old;
     dicts := dicts v |}.
Definition set_dicts (v : Vars) (x : Dict * Dict) : Vars :=
  {| losses := losses v; start_time := start_time v; round_time := round_time v;
     counted := counted v; delta := delta v; old_delta := old_delta v;
     dicts := Some x |}.

(** reading [input_dict], [output_dict] *)
Definition get_dicts (v : Vars) : M (Dict * Dict) :=
  match dicts v with
  | Some d => mret d
  | None => raise (NameError "input_dict")
  end.

(** [losses[counted] - losses[counted-1]] *)
Definition last_delta (v : Vars) : M Loss :=
  a ← lift (index (losses v) (counted v));
  b ← lift (index (losses v) (counted v - 1));
  mret (loss_sub a b).

Definition weights_url : string :=
  "https://github.com/clvcooke/nengo_dl/raw/master/docs/examples/Nengo-Autoencoder-Weights.zip".

Definition param_dir : string := "nengo_autoencoder".
Definition param_path : string := path_join param_dir "Nengo-Autoencoder".
Definition param_index : string := param_path +:+ ".index".
Definition param_zip_path : string := path_join param_dir "nengo-autoencoder-params.zip".

(** lines 212-216: download the archive, unpack it, delete it *)
Definition download_params : M unit :=
  urlretrieve weights_url param_zip_path;;
  f ← ZipFile param_zip_path;
  finally (ZipFile_extractall f param_dir) ZipFile_exit;;
  os_remove param_zip_path.

(** lines 207-216: make the directory and, unless the index file is
    there, download the parameters *)
Definition fetch_params : M unit :=
  ex ← os_path_exists param_dir;
  (if negb ex then os_mkdir param_dir else mret tt);;
  ex ← os_path_exists param_index;
  (if negb ex then download_params else mret tt).

(** the [if LOADING:] branch *)
Definition loading_branch (v : Vars) : M Vars :=
  d ← gen_data steps n_examples 0;
  let v := set_dicts v d in
  l ← sim_loss d.1 d.2 "mse";
  let v := set_losses v (losses v ++ [l]) in
  sim_run (lit_0_001 * float_of_Z steps)%float;;
  fetch_params;;
  sim_load_params param_path;;
  mret v.

(** the body of [for i in range(n_iters)] *)
Definition iter_body (optimizer : Optimizer) (e : Z) (i : Z) (v : Vars) : M Vars :=
  print (PProgress (i + 1) n_iters);;
  d ← gen_data steps n_examples (n_examples * i);
  let v := set_dicts v d in
  sim_train d.1 d.2 optimizer 2;;
  t ← time_time;
  let v := set_round_time v
             ((round_time v * float_of_Z i + t - start_time v)
              / float_of_Z (i + 1))%float in
  t ← time_time;
  let v := set_start_time v t in
  print (PEta (round_time v * float_of_Z ((10 - e) * n_iters - i - 1)
               / float_of_Z 60)%float);;
  mret v.

(** the body of [for e in range(repetitions)] *)
Definition epoch_body (optimizer : Optimizer) (e : Z) (v : Vars) : M Vars :=
  d ← gen_data steps n_examples 0;
  let v := set_dicts v d in
  l ← sim_loss d.1 d.2 "mse";
  let v := set_losses v (losses v ++ [l]) in
  print (PLosses (losses v));;
  v ← (if 0 <? counted v then
         let old := delta v in
         x ← last_delta v;
         let v := set_delta v old (NLoss x) in
         x ← last_delta v;
         print (PDelta x);;
         mret v
       else mret v);
  sim_run (lit_0_001 * float_of_Z steps)%float;;
  let v := set_counted v (counted v + 1) in
  for_range (iter_body optimizer e) 0 (Z.to_nat n_iters) v.

(** the [else:] branch *)
Definition training_branch (v : Vars) : M Vars :=
  optimizer ← MomentumOptimizer learning_rate lit_0_9;
  for_range (epoch_body optimizer) 0 (Z.to_nat repetitions) v.

(** lines 241-246, after the [if]/[else] *)
Definition epilogue (v : Vars) : M Vars :=
  d ← get_dicts v;
  l ← sim_loss d.1 d.2 "mse";
  let v := set_losses v (losses v ++ [l]) in
  print (PLosses (losses v));;
  (if 0 <? counted v then x ← last_delta v; print (PDelta x) else mret tt);;
  sim_run (lit_0_001 * float_of_Z steps)%float;;
  let v := set_counted v (counted v + 1) in
  mret v.

Definition initial_vars (t0 : float) : Vars :=
  {| losses := []; start_time := t0; round_time := 0%float; counted := 0;
     delta := NInt 1; old_delta := None; dicts := None |}.

(** The whole cell, lines 191-246. *)
Definition training_cell (loading : bool) : M Vars :=
  t0 ← time_time;
  let v := initial_vars t0 in
  Simulator steps n_examples;;
  finally
    (v ← (if loading then loading_branch v else training_branch v);
     epilogue v)
    Simulator_exit.

End Notebook.

End Autoencoder.

(** ** What a run of notebook code is checked against *)

Module Spec.
Import Py OS Autoencoder.

Section Spec.
Context {B : Backend}.

Definition succeeded (en : Entry) : Prop := en.2 = None.

(** the exits of the two [with] blocks *)
Definition is_exit (c : Call) : bool :=
  match c with c_Simulator_exit | c_ZipFile_exit => true | _ => false end.

Definition cleanup (en : Entry) : Prop := is_exit en.1 = true ∧ en.2 = None.

(** How the calls [es] of a run relate to its result [r]: if it returned,
    no call raised; if it raised [e], exactly one call raised, it raised
    [e], and only [with]-exits ran after it. *)
Definition propagated {A} (es : list Entry) (r : result A) : Prop :=
  match r with
  | inr _ => Forall succeeded es
  | inl e => ∃ es1 c es2, es = es1 ++ (c, Some e) :: es2
                          ∧ Forall succeeded es1 ∧ Forall cleanup es2
  end.

(** [m] only adds calls satisfying [K] to the log, raises only what a
    call raised, and returns only values satisfying [Q]. *)
Definition runs {A} (K : Entry → Prop) (Q : A → Prop) (m : M A) : Prop :=
  ∀ w, ∃ es, w_log (m w).1 = w_log w ++ es
             ∧ Forall K es
             ∧ propagated es (m w).2
             ∧ ∀ a, (m w).2 = inr a → Q a.

(** [m] leaves the file system as it found it. *)
Definition keeps_fs {A} (m : M A) : Prop := ∀ w, w_fs (m w).1 = w_fs w.

(** calls that change no file and fetch nothing *)
Definition is_local (c : Call) : bool :=
  match c with
  | c_mkdir _ | c_urlretrieve _ _ | c_extractall _ | c_remove _ => false
  | _ => true
  end.

Definition is_download (c : Call) : bool :=
  match c with c_urlretrieve _ _ => true | _ => false end.

(** a [sim.loss] or [sim.train] call whose target for the output probe
    is the array given to the input node *)
Definition same_data (c : Call) : Prop :=
  match c with
  | c_sim_loss i o _ | c_sim_train i o _ =>
      is_Some (i !! inp) ∧ i !! inp = o !! output_probe
  | _ => True
  end.

(** The libraries never raise on the calls the training branch makes. *)
Definition reliable : Prop :=
  (∀ imgs pt t, ∃ a, lib_present_input_run imgs pt t = inr a)
  ∧ (∀ ext a b, ∃ u, (lib_simulator_new ext a b).2 = inr u)
  ∧ (∀ ext i o s, ∃ l, (lib_sim_loss ext i o s).2 = inr l)
  ∧ (∀ ext t, ∃ u, (lib_sim_run ext t).2 = inr u)
  ∧ (∀ ext i o opt n, ∃ u, (lib_sim_train ext i o opt n).2 = inr u).

(** what every call of the training path satisfies *)
Definition K_local (en : Entry) : Prop :=
  is_local en.1 = true ∧ same_data en.1 ∧ (reliable → en.2 = None).

(** what every call of the cell satisfies *)
Definition K_cell (en : Entry) : Prop := same_data en.1.

Definition K_of (loading : bool) : Entry → Prop :=
  if loading then K_cell else K_local.

(** the two dictionaries [gen_data] builds *)
Definition paired (d : Dict * Dict) : Prop :=
  ∃ arr, d = ({[ inp := arr ]}, {[ output_probe := arr ]}).

(** [m] extends the log by calls that, with the file system before and
    after, satisfy [Φ]. *)
Definition tracks {A} (Φ : Fs → list Entry → Fs → Prop) (m : M A) : Prop :=
  ∀ w, ∃ es, w_log (m w).1 = w_log w ++ es ∧ Φ (w_fs w) es (w_fs (m w).1).

(** the calls a run of [m] in [w] adds to the log *)
Definition new_calls {A} (m : M A) (w : World) : list Entry :=
  drop (length (w_log w)) (w_log (m w).1).

(** [m] makes only calls that change no file, and changes none *)
Definition quiet {A} (m : M A) : Prop :=
  ∀ w, ∃ es, w_log (m w).1 = w_log w ++ es
             ∧ Forall (λ en, is_local en.1 = true) es
             ∧ w_fs (m w).1 = w_fs w.

(** What the download branch does to the files: it downloads only if the
    index file is missing, an index file that is there stays, once the
    archive was unpacked it is gone at the end, and a run without a
    file-changing call changes no file. *)
Definition fetch_shape (fs : Fs) (es : list Entry) (fs' : Fs) : Prop :=
  (Exists (λ en, is_download en.1 = true) es → fs !! param_index = None)
  ∧ (is_Some (fs !! param_index) → is_Some (fs' !! param_index))
  ∧ ((c_extractall param_dir, None) ∈ es → fs' !! param_zip_path = None)
  ∧ (Forall (λ en, is_local en.1 = true) es → fs' = fs).

(** The claim's words for the two adapters: the dense-layer primitive
    applied to [x] with [n1] units, then to the result with [n2] units. *)
Definition two_dense_layers (x : Tensor) (n1 n2 : Z) : M Tensor :=
  d ← fully_connected x n1; fully_connected d n2.

(** [input_dict], [output_dict] are bound, to a pair from [gen_data] *)
Definition has_dicts (v : Vars) : Prop := ∃ d, dicts v = Some d ∧ paired d.

(** kept by [for i in range(n_iters)]: it leaves [losses] and [counted]
    alone *)
Definition inner_inv (l : list Loss) (c : Z) (v : Vars) : Prop :=
  losses v = l ∧ counted v = c ∧ has_dicts v.

(** kept by [for e in range(repetitions)]: after [j] rounds [counted] is
    [j] and [losses] holds [j] values ([j0] is where the loop started) *)
Definition outer_inv (j0 j : nat) (v : Vars) : Prop :=
  counted v = Z.of_nat j ∧ length (losses v) = j ∧ (j0 < j → has_dicts v)%nat.

(** what lines 241-246 need, and what they do *)
Definition ready (v : Vars) : Prop :=
  0 ≤ counted v ≤ Z.of_nat (length (losses v)) ∧ has_dicts v.

Definition one_more (v v' : Vars) : Prop :=
  length (losses v') = Datatypes.S (length (losses v))
  ∧ counted v' = counted v + 1.

(** what the cell leaves in [losses] and [counted] *)
Definition cell_result (loading : bool) (v : Vars) : Prop :=
  if loading then length (losses v) = 2%nat ∧ counted v = 1
  else length (losses v) = 16%nat ∧ counted v = 16.

End Spec.

End Spec.

(** ** A small concrete backend, to run the code on *)

Module Demo.
Import Py OS Autoencoder.

Definition archive : File :=
  Archive ["Nengo-Autoencoder.index"; "Nengo-Autoencoder.meta";
           "Nengo-Autoencoder.data-00000-of-00001"].

(** Images are numbers, arrays are lists of them, a tensor is the list of
    layer widths applied so far, the external state is a call counter that
    also serves as clock and as loss value.  Nothing raises except loading
    parameters that are not on disk and whatever [fetch], the network,
    raises. *)
Definition make (fetch : Z → string → Z * result File) : Backend := {|
  Image := Z;
  Array := list Z;
  Tensor := list Z;
  Loss := Z;
  Optimizer := float * float;
  Ext := Z;
  lib_present_input_run := λ imgs pt t, inr (take 1 imgs);
  lib_asarray := λ l, concat l;
  lib_fully_connected := λ ext x n, (ext + 1, inr (x ++ [n]));
  lib_momentum_optimizer := λ lr m, (lr, m);
  lib_simulator_new := λ ext a b, (ext + 1, inr tt);
  lib_simulator_close := λ ext, ext + 1;
  lib_sim_loss := λ ext i o s, (ext + 1, inr ext);
  lib_sim_run := λ ext t, (ext + 1, inr tt);
  lib_sim_train := λ ext i o opt n, (ext + 1, inr tt);
  lib_sim_load_params := λ ext fs path,
    if path_exists fs (path +:+ ".index") then (ext + 1, inr tt)
    else (ext + 1, inl (Exn "NotFoundError" path));
  lib_fetch := fetch;
  lib_time := λ ext, (ext + 1, float_of_Z ext);
  loss_sub := Z.sub;
|}.

(** the network delivers the archive *)
Definition fetch_archive (ext : Z) (url : string) : Z * result File :=
  if String.eqb url weights_url then (ext + 1, inr archive)
  else (ext + 1, inl (Exn "URLError" url)).

(** the network is down *)
Definition fetch_down (ext : Z) (url : string) : Z * result File :=
  (ext + 1, inl (Exn "URLError" url)).

(** the network delivers a file that is no zip archive *)
Definition fetch_garbage (ext : Z) (url : string) : Z * result File :=
  (ext + 1, inr Data).

#[export] Instance backend : Backend := make fetch_archive.
Definition offline : Backend := make fetch_down.
Definition garbled : Backend := make fetch_garbage.

Definition mnist_on (fetch : Z → string → Z * result File) : @Dataset (make fetch) :=
  @Build_Dataset (make fetch) [5; 0; 4; 1; 9; 2] [7; 2; 1].

(** a fresh working directory *)
Definition fresh_on (fetch : Z → string → Z * result File) : @World (make fetch) :=
  @Build_World (make fetch) ∅ 0 [].

Definition mnist : Dataset := mnist_on fetch_archive.
Definition fresh : World := fresh_on fetch_archive.

(** a loading run in a fresh directory while the network is down, and one
    that is sent a file that is no archive *)
Definition offline_run : @World offline * result (@Vars offline) :=
  training_cell (B := offline) (mnist_on fetch_down) true (fresh_on fetch_down).
Definition garbled_run : @World garbled * result (@Vars garbled) :=
  training_cell (B := garbled) (mnist_on fetch_garbage) true (fresh_on fetch_garbage).

(** the working directory with the parameters already unpacked *)
Definition unpacked : World :=
  {| w_fs := <[param_index := Data]> (<[param_dir := Dir]> ∅);
     w_ext := 0; w_log := [] |}.

(** the same cell run again in the world the previous run left,
    with an empty log *)
Definition next_run (w : World) : World :=
  {| w_fs := w_fs w; w_ext := w_ext w; w_log := [] |}.

Definition downloads (w : World) : list Entry :=
  filter (λ en, is_true (Spec.is_download en.1)) (w_log w).

(** a loading run in the fresh directory, and the next loading run *)
Definition first_run : World * result Vars := training_cell mnist true fresh.
Definition second_run : World * result Vars :=
  training_cell mnist true (next_run first_run.1).

(** the variables the first loading run ends with *)
Definition first_vars : Vars :=
  {| losses := [2; 6]; start_time := float_of_Z 0; round_time := 0%float;
     counted := 1; delta := NInt 1; old_delta := None;
     dicts := Some ({[ inp := [5; 0; 4; 1; 9; 2] ]},
                    {[ output_probe := [5; 0; 4; 1; 9; 2] ]}) |}.

(** the variables after one round of [for i in range(n_iters)] started
    from the initial ones *)
Definition vars_after_one_iteration : Vars :=
  {| losses := []; start_time := 2%float; round_time := 1%float;
     counted := 0; delta := NInt 1; old_delta := None;
     dicts := Some ({[ inp := [5; 0; 4; 1; 9; 2] ]},
                    {[ output_probe := [5; 0; 4; 1; 9; 2] ]}) |}.

(** a loading run that finds the parameters *)
Definition cached_run : World * result Vars := training_cell mnist true unpacked.

(** the decoder as nengo_dl prepares it for a minibatch of 64 *)
Definition decoder : Adapter :=
  (pre_build new_Adapter [n_examples; n_hidden_2] [n_examples; n_input]).1.

Definition optimizer : Optimizer := lib_momentum_optimizer learning_rate lit_0_9.

End Demo.

(** ** htbab_tutorials/ch7-spa-sequence-routed.ipynb *)

Module RoutedSequence.

(** [dimensions = 16] *)
Definition dimensions : Z := 16.

(** The time argument is a Python float, that is an IEEE binary64 value;
    [t < 0.4] is the binary64 comparison against the double nearest to
    0.4, false whenever [t] is a NaN. *)
Definition lit_0_4 : float := 0x1.999999999999ap-2%float.

Definition start (t : float) : string :=
  if (t <? lit_0_4)%float then "0.8*START+D" else "0".

(** The rule table handed to [spa.Actions], one record per string
    ['dot(buffer, SYMBOL) --> target = value']. *)
Inductive Buffer := vision | state.
Inductive Sym := START | A | B | C | D | E.
Inductive Value := from_buffer (b : Buffer) | symbol (s : Sym).

Record Rule := {
  cond_buffer : Buffer;
  cond_symbol : Sym;
  target : Buffer;
  value : Value;
}.

Definition actions : list Rule := [
  {| cond_buffer := vision; cond_symbol := START; target := state; value := from_buffer vision |};
  {| cond_buffer := state; cond_symbol := A; target := state; value := symbol B |};
  {| cond_buffer := state; cond_symbol := B; target := state; value := symbol C |};
  {| cond_buffer := state; cond_symbol := C; target := state; value := symbol D |};
  {| cond_buffer := state; cond_symbol := D; target := state; value := symbol E |};
  {| cond_buffer := state; cond_symbol := E; target := state; value := symbol A |}
].

#[export] Instance Buffer_eq_dec : EqDecision Buffer.
Proof. solve_decision. Defined.
#[export] Instance Sym_eq_dec : EqDecision Sym.
Proof. solve_decision. Defined.

(** A rule that matches a symbol in a buffer and writes a symbol back into
    the same buffer is a transition of that buffer. *)
Definition transition_of (b : Buffer) (r : Rule) : option (Sym * Sym) :=
  match value r with
  | symbol s' =>
      if bool_decide (cond_buffer r = b ∧ target r = b)
      then Some (cond_symbol r, s') else None
  | from_buffer _ => None
  end.

(** The successor the table gives to symbol [s] in buffer [b]. *)
Definition successor (rules : list Rule) (b : Buffer) (s : Sym) : option Sym :=
  (λ p, snd (snd p)) <$> list_find (λ p, p.1 = s) (omap (transition_of b) rules).

Definition declares_transitions (rules : list Rule) : Prop :=
  ∃ b s s', successor rules b s = Some s'.

End RoutedSequence.

(** ** The three notebooks as sequences of library calls *)

Module Scripts.

(** Every library entry point a notebook calls at cell level, and the
    notebook's own definitions. *)
Inductive Api :=
| import_                       (* import statements, %matplotlib inline *)
| own_def                       (* class / def / plain assignment *)
| own_gen_data                  (* a call of the notebook's gen_data *)
| input_data_read_data_sets
| np_random_RandomState
| Vocabulary | vocab_add | vocab_parse
| nengo_Network | nengo_Node | nengo_Ensemble | nengo_Connection | nengo_Probe
| nengo_processes_PresentInput
| nengo_networks_CircularConvolution
| nengo_dl_TensorNode
| spa_SPA | spa_State | spa_Actions | spa_BasalGanglia | spa_Thalamus
| spa_Cortical | spa_Input
| nengo_Simulator | nengo_dl_Simulator
| sim_run | sim_loss | sim_train | sim_load_params | sim_trange
| tf_train_MomentumOptimizer
| os_path_join | os_path_exists | os_mkdir | os_remove
| urlretrieve | zipfile_ZipFile | zipfile_extractall
| time_time | print
| spa_similarity | np_reshape
| plt_figure | plt_subplot | plt_subplots | plt_plot | plt_title
| plt_legend | plt_xlabel | plt_ylabel | axis_imshow
| IPythonViz                    (* nengo_gui's interactive visualiser *)
| IPython_display_Image.        (* shows a stored .png *)

Inductive Phase :=
| LoadDataset | ConstructNetwork | RunSimulation | PlotResults
| Visualise | ShowImage.

#[export] Instance Phase_eq_dec : EqDecision Phase.
Proof. solve_decision. Defined.

(** The step a call belongs to; [None] for bookkeeping (imports,
    definitions, file and clock calls, printing, array helpers). *)
Definition phase (c : Api) : option Phase :=
  match c with
  | input_data_read_data_sets => Some LoadDataset
  | Vocabulary | nengo_Network | nengo_Node | nengo_Ensemble | nengo_Connection
  | nengo_Probe | nengo_processes_PresentInput | nengo_networks_CircularConvolution
  | nengo_dl_TensorNode | spa_SPA | spa_State | spa_Actions | spa_BasalGanglia
  | spa_Thalamus | spa_Cortical | spa_Input => Some ConstructNetwork
  | nengo_Simulator | nengo_dl_Simulator | sim_run | sim_loss | sim_train
  | sim_load_params => Some RunSimulation
  | plt_figure | plt_subplot | plt_subplots | plt_plot | plt_title | plt_legend
  | plt_xlabel | plt_ylabel | axis_imshow => Some PlotResults
  | IPythonViz => Some Visualise
  | IPython_display_Image => Some ShowImage
  | _ => None
  end.

(** deeplearning/TF-Nengo-Autoencoders.ipynb, cell by cell *)
Definition autoencoder : list Api :=
  [ import_; own_def ]
  ++ [ import_; input_data_read_data_sets ]
  ++ [ own_def; own_def; own_def ]
  ++ [ own_def; own_def;
       nengo_Network; nengo_processes_PresentInput; nengo_Node;
       nengo_dl_TensorNode; nengo_dl_TensorNode;
       nengo_Connection; nengo_Connection; nengo_Probe; nengo_Probe ]
  ++ [ own_def ]
  ++ [ own_def; time_time; nengo_dl_Simulator;
       (* if LOADING: *)
       own_gen_data; sim_loss; sim_run; os_path_join; os_path_exists; os_mkdir;
       os_path_exists; os_path_join; urlretrieve; zipfile_ZipFile;
       zipfile_extractall; os_remove; sim_load_params;
       (* else: *)
       tf_train_MomentumOptimizer; own_gen_data; sim_loss; print; print; sim_run;
       print; own_gen_data; sim_train; time_time; time_time; print;
       (* after the if *)
       sim_loss; print; print; sim_run ]
  ++ [ plt_subplots; np_reshape; axis_imshow; np_reshape; axis_imshow ].

(** the structured-representations notebook (src/unnamed/part_000) *)
Definition structure : list Api :=
  [ import_ ]
  ++ [ own_def; np_random_RandomState; Vocabulary; nengo_Network;
       nengo_Node; nengo_Node;
       nengo_Ensemble; nengo_Ensemble; nengo_Ensemble; nengo_Ensemble;
       nengo_networks_CircularConvolution;
       nengo_Connection; nengo_Connection; nengo_Connection; nengo_Connection;
       nengo_Connection; nengo_Connection; nengo_Connection ]
  ++ [ nengo_Probe; nengo_Probe; nengo_Probe; nengo_Probe ]
  ++ [ vocab_parse; vocab_add ]
  ++ [ nengo_Simulator; sim_run ]
  ++ [ plt_figure; plt_subplot; sim_trange; plt_plot; plt_title;
       plt_subplot; sim_trange; plt_plot; plt_title;
       plt_figure; plt_subplot; sim_trange; plt_plot; plt_title;
       plt_subplot; sim_trange; plt_plot; plt_title ]
  ++ [ sim_trange; spa_similarity; plt_plot; plt_legend; plt_xlabel; plt_ylabel ]
  ++ [ sim_trange; spa_similarity; plt_plot; plt_legend; plt_xlabel; plt_ylabel ]
  ++ [ import_; own_def; np_random_RandomState; Vocabulary; vocab_parse; vocab_add;
       spa_SPA; spa_State; spa_State; spa_State; spa_State; spa_Actions;
       spa_Cortical; spa_Input ]
  ++ [ import_; IPythonViz ]
  ++ [ import_; IPython_display_Image ].

(** htbab_tutorials/ch7-spa-sequence-routed.ipynb *)
Definition routed : list Api :=
  [ import_ ]
  ++ [ own_def; spa_SPA; spa_State; spa_State; spa_Actions;
       spa_BasalGanglia; spa_Thalamus; own_def; spa_Input ]
  ++ [ import_; IPythonViz ]
  ++ [ import_; IPython_display_Image ].

(** Consecutive repetitions of a phase count once. *)
Fixpoint collapse (l : list Phase) : list Phase :=
  match l with
  | [] => []
  | p :: l' =>
      match collapse l' with
      | q :: r => if decide (p = q) then q :: r else p :: q :: r
      | [] => [p]
      end
  end.

(** The steps a script goes through, in order. *)
Definition phases (script : list Api) : list Phase :=
  collapse (omap phase script).

Definition four_steps : list Phase :=
  [LoadDataset; ConstructNetwork; RunSimulation; PlotResults].

End Scripts.

(** ** What the calls of a run are, counted and located *)

Module Trace.
Import Py OS Autoencoder Spec.

Section Trace.
Context {B : Backend} (mnist : Dataset).

(** The calls [m] adds to the log and the result of [m] satisfy [R]. *)
Definition traced {A} (m : M A) (R : list Entry → result A → Prop) : Prop :=
  ∀ w, ∃ es, w_log (m w).1 = w_log w ++ es ∧ R es (m w).2.

(** [0.001*steps] *)
Definition run_time (steps : Z) : float := (lit_0_001 * float_of_Z steps)%float.

(** The arrays [gen_data] collects from round [k] on, [n] rounds to go,
    [acc] collected so far: the runs in order, up to the first that
    raises. *)
Fixpoint batch_list (steps pos k : Z) (n : nat) (acc : list Array)
  : result (list Array) :=
  match n with
  | O => inr acc
  | Datatypes.S n' =>
      match lib_present_input_run (slice_from (train_images mnist) (pos + k))
                                  (run_time steps) (run_time steps) with
      | inl e => inl e
      | inr a => batch_list steps pos (k + 1) n' (acc ++ [a])
      end
  end.

(** The array of the batch of [batchsize] images from [pos] on. *)
Definition batch (steps batchsize pos : Z) : result Array :=
  match batch_list steps pos 0 (Z.to_nat batchsize) [] with
  | inl e => inl e
  | inr l => inr (lib_asarray l)
  end.

(** the two dictionaries holding the array [b] *)
Definition pair_of (b : Array) : Dict * Dict :=
  ({[ inp := b ]}, {[ output_probe := b ]}).

(** a call [gen_data(steps, batchsize, pos)] may make *)
Definition batch_call (steps batchsize pos : Z) (en : Entry) : Prop :=
  match en.1 with
  | c_PresentInput_run imgs pt t =>
      pt = run_time steps ∧ t = run_time steps
      ∧ ∃ k, 0 ≤ k < batchsize ∧ imgs = slice_from (train_images mnist) (pos + k)
  | c_asarray _ => en.2 = None
  | _ => False
  end.

Definition is_present (c : Call) : bool :=
  match c with c_PresentInput_run _ _ _ => true | _ => false end.
Definition is_loss (c : Call) : bool :=
  match c with c_sim_loss _ _ _ => true | _ => false end.
Definition is_run (c : Call) : bool :=
  match c with c_sim_run _ => true | _ => false end.
Definition is_train (c : Call) : bool :=
  match c with c_sim_train _ _ _ => true | _ => false end.
Definition is_load (c : Call) : bool :=
  match c with c_sim_load_params _ => true | _ => false end.

(** how many calls of a kind a log holds *)
Definition n_calls (p : Call → bool) (es : list Entry) : nat :=
  length (filter (λ en, p en.1 = true) es).

(** the dictionaries are those of the training batch at [pos] *)
Definition on_batch (pos : Z) (d : Dict * Dict) : Prop :=
  ∃ b, batch steps n_examples pos = inr b ∧ d = pair_of b.

(** where the last batch of a round over the training images starts *)
Definition last_batch : Z := n_examples * (n_iters - 1).

(** A call of the training path: no file and no network call; every
    [PresentInput] run reads the training images from some position below
    [n_examples * n_iters] on; every loss is the mean squared error on
    dictionaries satisfying [L]; every training step is two epochs on one of
    the [n_iters] batches. *)
Definition training_call (L : Dict * Dict → Prop) (en : Entry) : Prop :=
  match en.1 with
  | c_PresentInput_run imgs pt t =>
      pt = run_time steps ∧ t = run_time steps
      ∧ ∃ p, 0 ≤ p < n_examples * n_iters
             ∧ imgs = slice_from (train_images mnist) p
  | c_sim_loss i o s => s = "mse" ∧ L (i, o)
  | c_sim_train i o n =>
      n = 2 ∧ ∃ k, 0 ≤ k < n_iters ∧ on_batch (n_examples * k) (i, o)
  | c_sim_run t => t = run_time steps
  | c_Simulator sb mb => sb = steps ∧ mb = n_examples
  | c_MomentumOptimizer lr m => lr = learning_rate ∧ m = lit_0_9
  | c_asarray _ | c_Simulator_exit | c_time | c_print _ => True
  | _ => False
  end.

(** A call of the loading path: nothing is trained, no optimizer is made
    and no progress is printed; the images read are those of the first
    batch and every loss is on that batch; the file and network calls name
    the directory, the index file, the archive and its address. *)
Definition loading_call (en : Entry) : Prop :=
  match en.1 with
  | c_PresentInput_run _ _ _ | c_asarray _ => batch_call steps n_examples 0 en
  | c_sim_loss i o s => s = "mse" ∧ on_batch 0 (i, o)
  | c_sim_run t => t = run_time steps
  | c_Simulator sb mb => sb = steps ∧ mb = n_examples
  | c_sim_load_params p => p = param_path
  | c_path_exists p => p = param_dir ∨ p = param_index
  | c_mkdir p => p = param_dir
  | c_urlretrieve u p => u = weights_url ∧ p = param_zip_path
  | c_ZipFile p => p = param_zip_path
  | c_extractall d => d = param_dir
  | c_remove p => p = param_zip_path
  | c_print (PLosses _) => True
  | c_Simulator_exit | c_ZipFile_exit | c_time => True
  | _ => False
  end.


(** [delta] as the loop leaves it: the last loss minus the one before,
    or still the initial 1 while fewer than two losses are recorded *)
Definition delta_of (ls : list Loss) : Num :=
  match rev ls with
  | a :: b :: _ => NLoss (loss_sub a b)
  | _ => NInt 1
  end.

(** A run of the training cell with [LOADING] off, in two parts: the rounds
    of training, every loss of which is on the first batch and which end
    with [delta] set from their own last two losses, then lines 241-246,
    whose loss is on the batch the loop generated last. *)
Definition training_run (es : list Entry) (r : result Vars) : Prop :=
  ∃ esA esB,
    es = esA ++ esB
    ∧ Forall (training_call (on_batch 0)) esA
    ∧ Forall (training_call (on_batch last_batch)) esB
    ∧ n_calls is_train esB = 0%nat
    ∧ ∀ v, r = inr v →
           n_calls is_loss esA = 15%nat ∧ n_calls is_run esA = 15%nat
           ∧ n_calls is_train esA = (15 * Z.to_nat n_iters)%nat
           ∧ n_calls is_loss esB = 1%nat ∧ n_calls is_run esB = 1%nat
           ∧ ∃ ls l, losses v = ls ++ [l] ∧ length ls = 15%nat
                     ∧ delta v = delta_of ls.

(** a step that leaves the loss history, the counter and [delta] alone *)
Definition unchanged (v v' : Vars) : Prop :=
  losses v' = losses v ∧ counted v' = counted v ∧ delta v' = delta v.

End Trace.

End Trace.

(** ** The plot cell, lines 262-265 *)

Module Plot.
Import Py Autoencoder.

(** [i*steps+steps-1], the row of [sim.data[probe][0]] shown in column [i] *)
Definition plot_row (i : Z) : Z := i * steps + steps - 1.

(** the rows read by [for i in range(0, len(losses))], in order *)
Definition plot_rows {B : Backend} (losses : list Loss) : list Z :=
  plot_row <$> seqZ 0 (Z.of_nat (length losses)).

End Plot.

(** ** More worlds to run the notebook in *)

Module Worlds.
Import Py OS Autoencoder Demo.

(** as many training images as MNIST has *)
Definition full_mnist : Dataset :=
  @Build_Dataset backend (replicate (Z.to_nat 55000) 0) [7; 2; 1].

(** the directory is there, the network sends a file that is no archive *)
Definition garbled_dir : @World garbled :=
  @Build_World garbled {[ param_dir := Dir ]} 0 [].

End Worlds.

Module RoutedSequenceFacts.
Import RoutedSequence.

Lemma SFcompare_swap (x y : spec_float) (c : comparison) :
  SFcompare x y = Some c → SFcompare y x = Some (CompOpp c).
Proof.
  destruct x as [sx | sx | | sx mx ex], y as [sy | sy | | sy my ey];
    simpl; try discriminate;
    try (intros [= <-]; repeat case_match; reflexivity).
  intros [= <-]. f_equal.
  destruct sx, sy; simpl; try reflexivity;
    rewrite (Z.compare_antisym ex ey);
    destruct (ex ?= ey) eqn:E; simpl; try reflexivity;
    rewrite ?Pos.compare_cont_antisym; simpl;
    rewrite ?CompOpp_involutive; reflexivity.
Qed.

(** binary64 [<=] and [<] exclude each other the other way round *)
Lemma float_leb_not_ltb (x y : float) :
  (x <=? y)%float = true → (y <? x)%float = false.
Proof.
  rewrite leb_spec, ltb_spec. unfold SFleb, SFltb.
  destruct (SFcompare (Prim2SF x) (Prim2SF y)) as [c|] eqn:E; [|discriminate].
  rewrite (SFcompare_swap _ _ _ E). destruct c; simpl; congruence.
Qed.

Example start_at_0 : start 0%float = "0.8*START+D".
Proof. reflexivity. Qed.
Example start_at_0_375 : start 0.375%float = "0.8*START+D".
Proof. reflexivity. Qed.
Example start_at_0_4 : start lit_0_4 = "0".
Proof. reflexivity. Qed.
Example start_at_nan : start nan = "0".
Proof. reflexivity. Qed.

(** C9: for every time [t], [start t] is ['0.8*START+D'] exactly when
    [t < 0.4] and ['0'] otherwise; in particular it is ['0'] for every
    [t >= 0.4]. *)
Theorem start_spec (t : float) :
  (start t = "0.8*START+D" ↔ (t <? lit_0_4)%float = true)
  ∧ (start t = "0" ↔ (t <? lit_0_4)%float = false)
  ∧ ((lit_0_4 <=? t)%float = true → start t = "0").
Proof.
  unfold start. split; [|split].
  - destruct (t <? lit_0_4)%float; split; (done || discriminate).
  - destruct (t <? lit_0_4)%float; split; (done || discriminate).
  - intros H. by rewrite (float_leb_not_ltb _ _ H).
Qed.

Lemma start_spec_witness :
  (lit_0_4 <=? 1.5)%float = true ∧ start 1.5%float = "0".
Proof.
  split; [reflexivity|]. apply (start_spec 1.5%float). reflexivity.
Defined.

End RoutedSequenceFacts.

(** ** How runs compose *)

Module SpecFacts.
Import Py OS Autoencoder Spec.

Section Rules.
Context {B : Backend}.

Lemma bind_run {A C} (m : M A) (k : A → M C) (w : World) :
  (m ≫= k) w = match m w with
               | (w', inr a) => k a w'
               | (w', inl e) => (w', inl e)
               end.
Proof. reflexivity. Qed.

Lemma propagated_app {A} (es1 es2 : list Entry) (r : result A) :
  Forall succeeded es1 → propagated es2 r → propagated (es1 ++ es2) r.
Proof.
  intros H1. destruct r as [e|a]; simpl.
  - intros (l1 & c & l2 & -> & Hl1 & Hl2).
    exists (es1 ++ l1), c, l2. rewrite <- app_assoc.
    split; [done|]. split; [by apply Forall_app|done].
  - intros H2. by apply Forall_app.
Qed.

Lemma propagated_exit {A} (es : list Entry) (r : result A) (c : Call) :
  is_exit c = true → propagated es r → propagated (es ++ [(c, None)]) r.
Proof.
  intros Hc. destruct r as [e|a]; simpl.
  - intros (l1 & c' & l2 & -> & Hl1 & Hl2).
    exists l1, c', (l2 ++ [(c, None)]). rewrite <- app_assoc. simpl.
    split; [done|]. split; [done|].
    apply Forall_app. split; [done|]. by repeat constructor.
  - intros H. apply Forall_app. split; [done|]. by repeat constructor.
Qed.

Lemma new_calls_eq {A} (m : M A) (w : World) (es : list Entry) :
  w_log (m w).1 = w_log w ++ es → new_calls m w = es.
Proof. intros H. unfold new_calls. by rewrite H, drop_app_length. Qed.

(** a call that raised decides the result *)
Lemma propagated_failure {A} (es : list Entry) (r : result A) (c : Call) (e : exn) :
  propagated es r → (c, Some e) ∈ es → r = inl e.
Proof.
  destruct r as [e'|a]; simpl.
  - intros (es1 & c' & es2 & -> & H1 & H2) Hin.
    rewrite Forall_forall in H1, H2.
    apply elem_of_app in Hin as [Hin|Hin]; [by apply H1 in Hin|].
    apply elem_of_cons in Hin as [Hin|Hin]; [congruence|].
    apply H2 in Hin as [_ Hin]. done.
  - intros H Hin. rewrite Forall_forall in H. by apply H in Hin.
Qed.

Lemma runs_ret {A} (K : Entry → Prop) (Q : A → Prop) (a : A) :
  Q a → runs K Q (mret a).
Proof.
  intros Ha w. exists []. simpl. rewrite app_nil_r.
  repeat split; try done. by intros ? [= <-].
Qed.

Lemma runs_bind {A C} (K : Entry → Prop) (Q : A → Prop) (Q' : C → Prop)
      (m : M A) (k : A → M C) :
  runs K Q m → (∀ a, Q a → runs K Q' (k a)) → runs K Q' (m ≫= k).
Proof.
  intros Hm Hk w. rewrite bind_run.
  destruct (Hm w) as (es1 & Hlog & HK & Hp & HQ).
  destruct (m w) as [w1 [e|a]]; simpl in *.
  - exists es1. repeat split; try done.
  - destruct (Hk a (HQ a eq_refl) w1) as (es2 & Hlog2 & HK2 & Hp2 & HQ2).
    exists (es1 ++ es2). rewrite Hlog2, Hlog, app_assoc.
    repeat split; try done.
    + by apply Forall_app.
    + by apply propagated_app.
Qed.

Lemma runs_weaken {A} (K K' : Entry → Prop) (Q Q' : A → Prop) (m : M A) :
  (∀ en, K en → K' en) → (∀ a, Q a → Q' a) → runs K Q m → runs K' Q' m.
Proof.
  intros HK HQ Hm w. destruct (Hm w) as (es & Hlog & HKs & Hp & HQs).
  exists es. repeat split; try done.
  - eapply Forall_impl; eauto.
  - eauto.
Qed.

Lemma runs_call {A} (K : Entry → Prop) (Q : A → Prop) (c : Call)
      (sem : Fs → Ext → Fs * Ext * result A) :
  (∀ fs ext, K (c, outcome (sem fs ext).2)) →
  (∀ fs ext a, (sem fs ext).2 = inr a → Q a) →
  runs K Q (call c sem).
Proof.
  intros HK HQ w. unfold call.
  specialize (HK (w_fs w) (w_ext w)). specialize (HQ (w_fs w) (w_ext w)).
  destruct (sem (w_fs w) (w_ext w)) as [[fs' ext'] r]. simpl in *.
  exists [(c, outcome r)]. repeat split; try done.
  - by repeat constructor.
  - destruct r as [e|a]; simpl.
    + exists [], c, []. by repeat split.
    + by repeat constructor.
Qed.

Lemma runs_finally {A} (K : Entry → Prop) (Q : A → Prop) (body : M A)
      (c : Call) (sem : Fs → Ext → Fs * Ext) :
  is_exit c = true → K (c, None) → runs K Q body →
  runs K Q (finally body (call c (λ fs ext, (sem fs ext, inr tt)))).
Proof.
  intros Hc HKc Hb w. unfold finally.
  destruct (Hb w) as (es & Hlog & HK & Hp & HQ).
  destruct (body w) as [w1 r]. simpl in *.
  unfold call. destruct (sem (w_fs w1) (w_ext w1)) as [fs' ext']. simpl.
  exists (es ++ [(c, None)]). rewrite Hlog, app_assoc.
  repeat split; try done.
  - apply Forall_app. split; [done|]. by repeat constructor.
  - by apply propagated_exit.
Qed.

Lemma runs_for {S} (K : Entry → Prop) (I : S → Prop) (body : Z → S → M S)
      (n : nat) :
  (∀ i s, I s → runs K I (body i s)) →
  ∀ start s, I s → runs K I (for_range body start n s).
Proof.
  intros Hb. induction n as [|n IH]; intros start s Hs; simpl.
  - by apply runs_ret.
  - eapply runs_bind; [by apply Hb|]. intros s' Hs'. by apply IH.
Qed.

(** a loop whose invariant is indexed by the number of rounds done *)
Lemma runs_for_count {S} (K : Entry → Prop) (I : nat → S → Prop)
      (body : Z → S → M S) (n : nat) :
  (∀ i j s, I j s → runs K (I (Datatypes.S j)) (body i s)) →
  ∀ start j s, I j s → runs K (I (j + n)%nat) (for_range body start n s).
Proof.
  intros Hb. induction n as [|n IH]; intros start j s Hs; simpl.
  - apply runs_ret. by rewrite Nat.add_0_r.
  - eapply runs_bind; [by apply Hb|]. intros s' Hs'.
    replace (j + Datatypes.S n)%nat with (Datatypes.S j + n)%nat by lia.
    by apply IH.
Qed.

(** reading a list inside its bounds returns *)
Lemma runs_index {A} (K : Entry → Prop) (l : list A) (i : Z) :
  0 ≤ i < Z.of_nat (length l) → runs K (λ _, True) (lift (index l i)).
Proof.
  intros Hi. unfold index.
  destruct (i <? 0) eqn:E1; [lia|]. rewrite E1.
  destruct (l !! Z.to_nat i) as [x|] eqn:E2.
  - by apply runs_ret.
  - apply lookup_ge_None in E2. lia.
Qed.

Lemma keeps_fs_ret {A} (a : A) : keeps_fs (mret a : M A).
Proof. by intros w. Qed.

Lemma keeps_fs_bind {A C} (m : M A) (k : A → M C) :
  keeps_fs m → (∀ a, keeps_fs (k a)) → keeps_fs (m ≫= k).
Proof.
  intros Hm Hk w. rewrite bind_run. specialize (Hm w).
  destruct (m w) as [w1 [e|a]]; simpl in *; [done|].
  by rewrite Hk.
Qed.

Lemma keeps_fs_call {A} (c : Call) (sem : Fs → Ext → Fs * Ext * result A) :
  (∀ fs ext, (sem fs ext).1.1 = fs) → keeps_fs (call c sem).
Proof.
  intros H w. unfold call. specialize (H (w_fs w) (w_ext w)).
  by destruct (sem (w_fs w) (w_ext w)) as [[fs' ext'] r].
Qed.

Lemma keeps_fs_finally {A} (body : M A) (exit : M unit) :
  keeps_fs body → keeps_fs exit → keeps_fs (finally body exit).
Proof.
  intros Hb He w. unfold finally. specialize (Hb w).
  destruct (body w) as [w1 r]. simpl in *. by rewrite He.
Qed.

Lemma keeps_fs_for {S} (body : Z → S → M S) (n : nat) :
  (∀ i s, keeps_fs (body i s)) → ∀ start s, keeps_fs (for_range body start n s).
Proof.
  intros Hb. induction n as [|n IH]; intros start s; simpl.
  - apply keeps_fs_ret.
  - apply keeps_fs_bind; [apply Hb|]. intros s'. apply IH.
Qed.

Lemma keeps_fs_lift {A} (r : result A) : keeps_fs (lift r).
Proof. by destruct r. Qed.

End Rules.

End SpecFacts.

(** ** deeplearning/TF-Nengo-Autoencoders.ipynb: the library calls *)

Module CallFacts.
Import Py OS Autoencoder Spec SpecFacts.

Section Calls.
Context {B : Backend}.

Lemma local_call {A} (Q : A → Prop) (c : Call)
      (sem : Fs → Ext → Fs * Ext * result A) :
  is_local c = true → same_data c →
  (reliable → ∀ fs ext, ∃ a, (sem fs ext).2 = inr a) →
  (∀ fs ext a, (sem fs ext).2 = inr a → Q a) →
  runs K_local Q (call c sem).
Proof.
  intros Hl Hd Hr HQ. apply runs_call; [|done].
  intros fs ext. repeat split; try done. simpl.
  intros Hrel. by destruct (Hr Hrel fs ext) as [a ->].
Qed.

Lemma cell_call {A} (c : Call) (sem : Fs → Ext → Fs * Ext * result A) :
  same_data c → runs K_cell (λ _, True) (call c sem).
Proof. intros Hd. by apply runs_call. Qed.

Lemma K_local_cell (en : Entry) : K_local en → K_cell en.
Proof. by intros (_ & H & _). Qed.

Lemma K_local_is_local (en : Entry) : K_local en → is_local en.1 = true.
Proof. by intros (H & _). Qed.

Lemma K_local_K_of (L : bool) (en : Entry) : K_local en → K_of L en.
Proof. destruct L; simpl; [apply K_local_cell|done]. Qed.

Ltac unpair :=
  repeat match goal with
         | |- context [let '(_, _) := ?x in _] => destruct x as [? ?] eqn:?; simpl in *
         | H : context [let '(_, _) := ?x in _] |- _ => destruct x as [? ?] eqn:?; simpl in *
         end.

Lemma PresentInput_run_runs (imgs : list Image) (pt t : float) :
  runs K_local (λ _, True) (PresentInput_run imgs pt t).
Proof.
  apply local_call; try done. intros (H & _) fs ext. simpl. apply H.
Qed.

Lemma asarray_runs (l : list Array) :
  runs K_local (λ a, a = lib_asarray l) (asarray l).
Proof.
  apply local_call; try done; simpl; eauto. by intros ? ? ? [= <-].
Qed.

Lemma MomentumOptimizer_runs (lr m : float) :
  runs K_local (λ _, True) (MomentumOptimizer lr m).
Proof. apply local_call; try done; simpl; eauto. Qed.

Lemma Simulator_runs (a b : Z) : runs K_local (λ _, True) (Simulator a b).
Proof.
  apply local_call; try done. intros (_ & H & _) fs ext.
  specialize (H ext a b). unpair. done.
Qed.

Lemma sim_loss_runs (i o : Dict) (s : string) :
  same_data (c_sim_loss i o s) → runs K_local (λ _, True) (sim_loss i o s).
Proof.
  intros Hd. apply local_call; try done. intros (_ & _ & H & _) fs ext.
  specialize (H ext i o s). unpair. done.
Qed.

Lemma sim_run_runs (t : float) : runs K_local (λ _, True) (sim_run t).
Proof.
  apply local_call; try done. intros (_ & _ & _ & H & _) fs ext.
  specialize (H ext t). unpair. done.
Qed.

Lemma sim_train_runs (i o : Dict) (opt : Optimizer) (n : Z) :
  same_data (c_sim_train i o n) → runs K_local (λ _, True) (sim_train i o opt n).
Proof.
  intros Hd. apply local_call; try done. intros (_ & _ & _ & _ & H) fs ext.
  specialize (H ext i o opt n). unpair. done.
Qed.

Lemma time_time_runs : runs K_local (λ _, True) time_time.
Proof.
  apply local_call; try done. intros _ fs ext. unpair. eauto.
Qed.

Lemma print_runs (what : Printed) : runs K_local (λ _, True) (print what).
Proof. apply local_call; try done; simpl; eauto. Qed.

Lemma sim_load_params_runs (p : string) :
  runs (λ en, is_local en.1 = true ∧ same_data en.1) (λ _, True) (sim_load_params p).
Proof. by apply runs_call. Qed.

(** none of these touches a file *)
Lemma PresentInput_run_keeps imgs pt t : keeps_fs (PresentInput_run imgs pt t).
Proof. by apply keeps_fs_call. Qed.
Lemma asarray_keeps l : keeps_fs (asarray l).
Proof. by apply keeps_fs_call. Qed.
Lemma MomentumOptimizer_keeps lr m : keeps_fs (MomentumOptimizer lr m).
Proof. by apply keeps_fs_call. Qed.
Lemma Simulator_keeps a b : keeps_fs (Simulator a b).
Proof. apply keeps_fs_call. intros. by unpair. Qed.
Lemma Simulator_exit_keeps : keeps_fs Simulator_exit.
Proof. by apply keeps_fs_call. Qed.
Lemma sim_loss_keeps i o s : keeps_fs (sim_loss i o s).
Proof. apply keeps_fs_call. intros. by unpair. Qed.
Lemma sim_run_keeps t : keeps_fs (sim_run t).
Proof. apply keeps_fs_call. intros. by unpair. Qed.
Lemma sim_train_keeps i o opt n : keeps_fs (sim_train i o opt n).
Proof. apply keeps_fs_call. intros. by unpair. Qed.
Lemma sim_load_params_keeps p : keeps_fs (sim_load_params p).
Proof. apply keeps_fs_call. intros. by unpair. Qed.
Lemma time_time_keeps : keeps_fs time_time.
Proof. apply keeps_fs_call. intros. by unpair. Qed.
Lemma print_keeps what : keeps_fs (print what).
Proof. by apply keeps_fs_call. Qed.

End Calls.

Create HintDb runs.
Create HintDb keeps.

#[export] Hint Resolve PresentInput_run_runs asarray_runs MomentumOptimizer_runs
  Simulator_runs sim_run_runs time_time_runs print_runs : runs.
#[export] Hint Resolve PresentInput_run_keeps asarray_keeps MomentumOptimizer_keeps
  Simulator_keeps Simulator_exit_keeps sim_loss_keeps sim_run_keeps sim_train_keeps
  sim_load_params_keeps time_time_keeps print_keeps keeps_fs_ret keeps_fs_lift : keeps.

End CallFacts.

(** ** deeplearning/TF-Nengo-Autoencoders.ipynb: the notebook's own code *)

Module AutoencoderFacts.
Import Py OS Autoencoder Spec SpecFacts CallFacts.

Section Facts.
Context {B : Backend} (mnist : Dataset).

Lemma bind_ret_run {A} (m : M A) (w : World) : (a ← m; mret a) w = m w.
Proof. rewrite bind_run. by destruct (m w) as [w' [e|a]]. Qed.

Lemma two_dense_layers_log (x : Tensor) (n1 n2 : Z) (w w' : World) (d : Tensor) :
  two_dense_layers x n1 n2 w = (w', inr d) →
  ∃ d1 w1, fully_connected x n1 w = (w1, inr d1)
           ∧ fully_connected d1 n2 w1 = (w', inr d)
           ∧ w_log w' = w_log w ++ [(c_fully_connected x n1, None);
                                    (c_fully_connected d1 n2, None)].
Proof.
  unfold two_dense_layers. rewrite bind_run.
  destruct (fully_connected x n1 w) as [w1 [e|d1]] eqn:E1; [done|].
  intros E2. exists d1, w1. repeat split; try done.
  revert E1 E2. unfold fully_connected, call.
  destruct (lib_fully_connected (w_ext w) x n1) as [ext1 r1].
  destruct (lib_fully_connected (w_ext w1) d1 n2) as [ext2 r2].
  intros [= <- ->] [= <- ->]. simpl. by rewrite <- app_assoc.
Qed.

(** C1: [Encoder.__call__] is the dense-layer primitive applied to [x]
    with 256 units and then with 128 units; [Decoder.__call__] is the
    same with 256 and then [self.size_out] units; a call that returns has
    logged exactly these two library calls, the second on the result of
    the first, and nothing else. *)
Theorem Encoder_Decoder_two_layers (self : Adapter) (t : float) (x : Tensor) :
  (∀ w, Encoder_call self t x w = two_dense_layers x 256 128 w)
  ∧ (∀ n, size_out self = Some n →
          ∀ w, Decoder_call self t x w = two_dense_layers x 256 n w)
  ∧ (∀ n1 n2 w w' d,
        two_dense_layers x n1 n2 w = (w', inr d) →
        ∃ d1, w_log w' = w_log w ++ [(c_fully_connected x n1, None);
                                     (c_fully_connected d1 n2, None)]).
Proof.
  split; [|split].
  - intros w. unfold Encoder_call, two_dense_layers, n_hidden_1, n_hidden_2.
    rewrite !bind_run.
    destruct (fully_connected x 256 w) as [w1 [e|d1]]; [done|].
    apply bind_ret_run.
  - intros n Hn w. unfold Decoder_call, two_dense_layers, n_hidden_1.
    rewrite Hn, !bind_run.
    destruct (fully_connected x 256 w) as [w1 [e|d1]]; [done|].
    simpl. apply bind_ret_run.
  - intros n1 n2 w w' d H.
    destruct (two_dense_layers_log _ _ _ _ _ _ H) as (d1 & w1 & _ & _ & Hlog).
    by exists d1.
Qed.

(** *** gen_data *)

Lemma gen_data_runs (steps batchsize pos : Z) :
  runs K_local paired (gen_data mnist steps batchsize pos).
Proof.
  unfold gen_data.
  eapply runs_bind with (Q := λ _, True).
  { apply runs_for; [|done]. intros i l _.
    eapply runs_bind; [apply PresentInput_run_runs|].
    intros a _. by apply runs_ret. }
  intros l _.
  eapply runs_bind; [apply asarray_runs|]. intros a1 ->.
  eapply runs_bind; [apply asarray_runs|]. intros a2 ->.
  apply runs_ret. by eexists.
Qed.

Lemma gen_data_keeps (steps batchsize pos : Z) :
  keeps_fs (gen_data mnist steps batchsize pos).
Proof.
  unfold gen_data. apply keeps_fs_bind.
  { apply keeps_fs_for. intros i l.
    apply keeps_fs_bind; [apply PresentInput_run_keeps|].
    intros. apply keeps_fs_ret. }
  intros l. repeat (apply keeps_fs_bind; [apply asarray_keeps|]; intros).
  apply keeps_fs_ret.
Qed.

Lemma paired_same_data (d : Dict * Dict) :
  paired d → is_Some (d.1 !! inp) ∧ d.1 !! inp = d.2 !! output_probe.
Proof.
  intros [arr ->]. simpl. rewrite !lookup_singleton_eq. eauto.
Qed.

(** C8: whatever [steps], [batchsize] and [pos], the two dictionaries
    [gen_data] returns hold the same array, the first under the input
    node and the second under the output probe. *)
Theorem gen_data_same_array (steps batchsize pos : Z) (w : World)
        (in_dict out_dict : Dict) :
  (gen_data mnist steps batchsize pos w).2 = inr (in_dict, out_dict) →
  ∃ arr, in_dict !! inp = Some arr ∧ out_dict !! output_probe = Some arr
         ∧ in_dict = {[ inp := arr ]} ∧ out_dict = {[ output_probe := arr ]}.
Proof.
  intros H. destruct (gen_data_runs steps batchsize pos w) as (es & _ & _ & _ & HQ).
  destruct (HQ _ H) as [arr [= -> ->]].
  exists arr. by rewrite !lookup_singleton_eq.
Qed.

(** *** the training cell *)

Lemma last_delta_runs (K : Entry → Prop) (v : Vars) :
  0 < counted v < Z.of_nat (length (losses v)) →
  runs K (λ _, True) (last_delta v).
Proof.
  intros H. unfold last_delta.
  eapply runs_bind; [apply runs_index; lia|]. intros a _.
  eapply runs_bind; [apply runs_index; lia|]. intros b _.
  by apply runs_ret.
Qed.

Lemma last_delta_keeps (v : Vars) : keeps_fs (last_delta v).
Proof.
  unfold last_delta. repeat (apply keeps_fs_bind; [apply keeps_fs_lift|]; intros).
  apply keeps_fs_ret.
Qed.

Lemma iter_body_runs (opt : Optimizer) (e i : Z) (v : Vars) :
  runs K_local (inner_inv (losses v) (counted v)) (iter_body mnist opt e i v).
Proof.
  unfold iter_body.
  eapply runs_bind; [apply print_runs|]. intros _ _.
  eapply runs_bind; [apply gen_data_runs|]. intros d Hd.
  eapply runs_bind; [apply sim_train_runs, paired_same_data, Hd|]. intros _ _.
  eapply runs_bind; [apply time_time_runs|]. intros t1 _.
  eapply runs_bind; [apply time_time_runs|]. intros t2 _.
  eapply runs_bind; [apply print_runs|]. intros _ _.
  apply runs_ret. repeat split; simpl. by exists d.
Qed.

Lemma iter_body_keeps (opt : Optimizer) (e i : Z) (v : Vars) :
  keeps_fs (iter_body mnist opt e i v).
Proof.
  unfold iter_body.
  repeat (apply keeps_fs_bind; [auto using gen_data_keeps with keeps|]; intros).
  apply keeps_fs_ret.
Qed.

Lemma inner_loop_runs (opt : Optimizer) (e : Z) (n : nat) (v : Vars) :
  has_dicts v →
  runs K_local (inner_inv (losses v) (counted v))
       (for_range (iter_body mnist opt e) 0 n v).
Proof.
  intros Hd. apply runs_for; [|done].
  intros i s (Hl & Hc & _). rewrite <- Hl, <- Hc. apply iter_body_runs.
Qed.

Lemma epoch_body_runs (opt : Optimizer) (e : Z) (j0 j : nat) (v : Vars) :
  outer_inv j0 j v →
  runs K_local (λ v', outer_inv j0 (Datatypes.S j) v' ∧ has_dicts v')
       (epoch_body mnist opt e v).
Proof.
  intros (Hc & Hl & _). unfold epoch_body.
  eapply runs_bind; [apply gen_data_runs|]. intros d Hd.
  eapply runs_bind; [apply sim_loss_runs, paired_same_data, Hd|]. intros l _.
  eapply runs_bind; [apply print_runs|]. intros _ _.
  set (v1 := set_losses (set_dicts v d) (losses (set_dicts v d) ++ [l])).
  assert (Hv1 : counted v1 = Z.of_nat j ∧ length (losses v1) = Datatypes.S j
                ∧ has_dicts v1).
  { subst v1. simpl. rewrite length_app. simpl.
    repeat split; [done|lia|by exists d]. }
  destruct Hv1 as (Hc1 & Hl1 & Hd1). clearbody v1.
  eapply runs_bind with
    (Q := λ v2, counted v2 = Z.of_nat j ∧ length (losses v2) = Datatypes.S j
                ∧ has_dicts v2).
  { destruct (0 <? counted v1) eqn:Hpos; [|by apply runs_ret].
    apply Z.ltb_lt in Hpos.
    eapply runs_bind; [apply last_delta_runs; lia|]. intros x _.
    eapply runs_bind; [apply last_delta_runs; simpl; lia|]. intros y _.
    eapply runs_bind; [apply print_runs|]. intros _ _.
    by apply runs_ret. }
  intros v2 (Hc2 & Hl2 & Hd2).
  eapply runs_bind; [apply sim_run_runs|]. intros _ _.
  eapply runs_weaken; [done| |apply inner_loop_runs; apply Hd2].
  simpl. intros v3 (Hl3 & Hc3 & Hd3).
  repeat split; try done; rewrite ?Hl3, ?Hc3; lia.
Qed.

Lemma epoch_body_keeps (opt : Optimizer) (e : Z) (v : Vars) :
  keeps_fs (epoch_body mnist opt e v).
Proof.
  unfold epoch_body.
  apply keeps_fs_bind; [apply gen_data_keeps|]. intros d.
  apply keeps_fs_bind; [apply sim_loss_keeps|]. intros l.
  apply keeps_fs_bind; [apply print_keeps|]. intros _.
  apply keeps_fs_bind.
  { case_match; [|apply keeps_fs_ret].
    repeat (apply keeps_fs_bind; [auto using last_delta_keeps with keeps|]; intros).
    apply keeps_fs_ret. }
  intros v2. apply keeps_fs_bind; [apply sim_run_keeps|]. intros _.
  apply keeps_fs_for. intros. apply iter_body_keeps.
Qed.

Lemma epochs_run (opt : Optimizer) (n : nat) (start : Z) (j0 : nat) (v : Vars) :
  outer_inv j0 j0 v →
  runs K_local (outer_inv j0 (j0 + n)) (for_range (epoch_body mnist opt) start n v).
Proof.
  intros Hv.
  apply (runs_for_count K_local (outer_inv j0) (epoch_body mnist opt) n); [|done].
  intros i j s Hs. eapply runs_weaken; [done| |by apply epoch_body_runs].
  by intros v' [H _].
Qed.

Lemma training_branch_runs (v : Vars) :
  outer_inv 0 0 v → runs K_local (outer_inv 0 15) (training_branch mnist v).
Proof.
  intros Hv. unfold training_branch.
  eapply runs_bind; [apply MomentumOptimizer_runs|]. intros opt _.
  replace (Z.to_nat repetitions) with 15%nat by reflexivity.
  by apply (epochs_run opt 15 0 0).
Qed.

Lemma training_branch_keeps (v : Vars) : keeps_fs (training_branch mnist v).
Proof.
  unfold training_branch.
  apply keeps_fs_bind; [apply MomentumOptimizer_keeps|]. intros opt.
  apply keeps_fs_for. intros. apply epoch_body_keeps.
Qed.

Lemma epilogue_runs (v : Vars) :
  ready v → runs K_local (one_more v) (epilogue v).
Proof.
  intros (Hc & d & Hd & Hp). unfold epilogue, get_dicts. rewrite Hd.
  eapply runs_bind with (Q := λ x, x = d); [by apply runs_ret|]. intros ? ->.
  eapply runs_bind; [apply sim_loss_runs, paired_same_data, Hp|]. intros l _.
  eapply runs_bind; [apply print_runs|]. intros _ _.
  eapply runs_bind with (Q := λ _, True).
  { simpl. destruct (0 <? counted v) eqn:Hpos; [|by apply runs_ret].
    apply Z.ltb_lt in Hpos.
    eapply runs_bind; [|intros x _; apply print_runs].
    apply last_delta_runs. simpl. rewrite length_app. simpl. lia. }
  intros _ _.
  eapply runs_bind; [apply sim_run_runs|]. intros _ _.
  apply runs_ret. split; simpl; [|done]. rewrite length_app. simpl. lia.
Qed.

Lemma epilogue_keeps (v : Vars) : keeps_fs (epilogue v).
Proof.
  unfold epilogue, get_dicts.
  apply keeps_fs_bind; [by destruct (dicts v)|]. intros d.
  apply keeps_fs_bind; [apply sim_loss_keeps|]. intros l.
  apply keeps_fs_bind; [apply print_keeps|]. intros _.
  apply keeps_fs_bind.
  { case_match; [|apply keeps_fs_ret].
    apply keeps_fs_bind; [apply last_delta_keeps|]. intros. apply print_keeps. }
  intros _. apply keeps_fs_bind; [apply sim_run_keeps|]. intros _.
  apply keeps_fs_ret.
Qed.

Lemma fetch_params_runs : runs K_cell (λ _, True) fetch_params.
Proof.
  unfold fetch_params.
  eapply runs_bind; [by apply cell_call|]. intros ex1 _.
  eapply runs_bind with (Q := λ _, True).
  { destruct (negb ex1); [by apply cell_call|by apply runs_ret]. }
  intros _ _.
  eapply runs_bind; [by apply cell_call|]. intros ex2 _.
  destruct (negb ex2); [|by apply runs_ret]. unfold download_params.
  eapply runs_bind; [by apply cell_call|]. intros _ _.
  eapply runs_bind; [by apply cell_call|]. intros f _.
  eapply runs_bind; [|intros _ _; by apply cell_call].
  apply (runs_finally K_cell (λ _, True) _ c_ZipFile_exit (λ fs ext, (fs, ext)));
    try done.
  by apply cell_call.
Qed.

Lemma loading_branch_runs (v : Vars) :
  counted v = 0 → losses v = [] →
  runs K_cell (λ v', counted v' = 0 ∧ length (losses v') = 1%nat ∧ has_dicts v')
       (loading_branch mnist v).
Proof.
  intros Hc Hl. unfold loading_branch.
  eapply runs_bind;
    [eapply runs_weaken; [apply K_local_cell|done|apply gen_data_runs]|].
  intros d Hd.
  eapply runs_bind;
    [eapply runs_weaken;
     [apply K_local_cell|done|apply sim_loss_runs, paired_same_data, Hd]|].
  intros l _.
  eapply runs_bind;
    [eapply runs_weaken; [apply K_local_cell|done|apply sim_run_runs]|].
  intros _ _.
  eapply runs_bind; [apply fetch_params_runs|]. intros _ _.
  eapply runs_bind; [by apply cell_call|]. intros _ _.
  apply runs_ret. simpl. rewrite Hl. repeat split; try done. by exists d.
Qed.

Lemma training_cell_runs (loading : bool) :
  runs (K_of loading) (cell_result loading) (training_cell mnist loading).
Proof.
  unfold training_cell.
  eapply runs_bind;
    [eapply runs_weaken; [apply K_local_K_of|done|apply time_time_runs]|].
  intros t0 _.
  eapply runs_bind;
    [eapply runs_weaken; [apply K_local_K_of|done|apply Simulator_runs]|].
  intros _ _.
  apply (runs_finally (K_of loading) (cell_result loading) _ c_Simulator_exit
                      (λ fs ext, (fs, lib_simulator_close ext))); [done| |].
  { by destruct loading. }
  destruct loading; simpl.
  - eapply runs_bind; [by apply loading_branch_runs|].
    intros v (Hc & Hl & Hd).
    eapply runs_weaken; [apply K_local_cell| |apply epilogue_runs].
    + intros v' (Hl' & Hc'). split; [by rewrite Hl', Hl|by rewrite Hc', Hc].
    + split; [lia|done].
  - eapply runs_bind.
    { apply training_branch_runs. repeat split. simpl. lia. }
    intros v (Hc & Hl & Hd).
    eapply runs_weaken; [done| |apply epilogue_runs].
    + intros v' (Hl' & Hc'). split; [by rewrite Hl', Hl|by rewrite Hc', Hc].
    + split; [lia|]. apply Hd. lia.
Qed.

(** with libraries that do not raise, code made of such calls returns *)
Lemma reliable_returns {A} (Q : A → Prop) (m : M A) :
  reliable → runs K_local Q m → ∀ w, ∃ w' a, m w = (w', inr a) ∧ Q a.
Proof.
  intros Hrel Hm w. destruct (Hm w) as (es & _ & HK & Hp & HQ).
  destruct (m w) as [w' [e|a]]; simpl in *.
  - destruct Hp as (l1 & c & l2 & -> & _ & _).
    apply Forall_app in HK as [_ HK]. apply Forall_cons in HK as [(_ & _ & Hc) _].
    by specialize (Hc Hrel).
  - exists w', a. eauto.
Qed.


(** C10, on the code: when the cell returns, [losses] holds 16 values and
    [counted] is 16 if [LOADING] is false; if [LOADING] is true [losses]
    holds 2 values but [counted] is 1, because the loading branch appends
    a loss without counting it. *)
Theorem losses_and_counted (loading : bool) (w : World) (v : Vars) :
  (training_cell mnist loading w).2 = inr v →
  if loading
  then length (losses v) = 2%nat ∧ counted v = 1
  else length (losses v) = 16%nat ∧ counted v = 16.
Proof.
  intros H. destruct (training_cell_runs loading w) as (es & _ & _ & _ & HQ).
  by apply HQ.
Qed.

(** with libraries that do not raise, the training run does return, with
    16 losses recorded and counted *)
Lemma training_cell_returns (w : World) :
  reliable →
  ∃ w' v, training_cell mnist false w = (w', inr v)
          ∧ length (losses v) = 16%nat ∧ counted v = 16.
Proof.
  intros Hrel.
  destruct (reliable_returns _ _ Hrel (training_cell_runs false) w)
    as (w' & v & E & Hv).
  by exists w', v.
Qed.



End Facts.

End AutoencoderFacts.

(** ** The download branch and the files *)

Module DownloadFacts.
Import Py OS Autoencoder Spec SpecFacts CallFacts AutoencoderFacts.

Lemma mkdir_lookup_ne (fs : Fs) (p q : string) :
  p ≠ q → (mkdir fs p).1 !! q = fs !! q.
Proof.
  intros Hne. unfold mkdir. repeat case_match; simpl; try done.
  by rewrite lookup_insert_ne.
Qed.

Lemma remove_gone (fs : Fs) (p : string) :
  fs !! p ≠ Some Dir → (remove fs p).1 !! p = None.
Proof.
  intros Hd. unfold remove. destruct (fs !! p) as [[]|] eqn:E; simpl;
    try done; apply lookup_delete_eq.
Qed.

Lemma write_file_not_dir (fs : Fs) (p q : string) :
  fs !! q ≠ Some Dir → (write_file fs p Data).1 !! q ≠ Some Dir.
Proof.
  intros Hq. unfold write_file. repeat case_match; simpl; try done;
    (destruct (decide (p = q)) as [->|];
     [by rewrite lookup_insert_eq|by rewrite lookup_insert_ne]).
Qed.

Lemma extractall_not_dir (dir : string) (ms : list string) (q : string) :
  ∀ fs, fs !! q ≠ Some Dir → (extractall fs dir ms).1 !! q ≠ Some Dir.
Proof.
  induction ms as [|m ms IH]; intros fs Hq; simpl; [done|].
  pose proof (write_file_not_dir fs (path_join dir m) q Hq) as H.
  destruct (write_file fs (path_join dir m) Data) as [fs' [e|u]]; simpl in *.
  - done.
  - by apply IH.
Qed.

Lemma param_dir_ne_index : param_dir ≠ param_index.
Proof. by vm_compute. Qed.

Lemma param_zip_ne_index : param_zip_path ≠ param_index.
Proof. by vm_compute. Qed.

Section Download.
Context {B : Backend} (mnist : Dataset).

Lemma local_not_download (c : Call) : is_local c = true → is_download c = false.
Proof. by destruct c. Qed.

Lemma fetch_shape_local (fs : Fs) (es : list Entry) :
  Forall (λ en, is_local en.1 = true) es → fetch_shape fs es fs.
Proof.
  intros Hes. repeat split; try done.
  - intros Hex. apply Exists_exists in Hex as (en & Hin & Hd).
    rewrite Forall_forall in Hes. apply Hes, local_not_download in Hin. congruence.
  - intros Hin. rewrite Forall_forall in Hes. by apply Hes in Hin.
Qed.

Lemma fetch_shape_local_l (fs fs' : Fs) (es0 es : list Entry) :
  Forall (λ en, is_local en.1 = true) es0 →
  fetch_shape fs es fs' → fetch_shape fs (es0 ++ es) fs'.
Proof.
  intros H0 (H1 & H2 & H3 & H4). rewrite Forall_forall in H0.
  repeat split; try done.
  - intros Hex. apply Exists_app in Hex as [Hex|Hex]; [|by apply H1].
    apply Exists_exists in Hex as (en & Hin & Hd).
    apply H0, local_not_download in Hin. congruence.
  - intros Hin. apply elem_of_app in Hin as [Hin|Hin]; [|by apply H3].
    by apply H0 in Hin.
  - intros Hall. apply Forall_app in Hall as [_ Hall]. by apply H4.
Qed.

Lemma fetch_shape_local_r (fs fs' : Fs) (es es1 : list Entry) :
  Forall (λ en, is_local en.1 = true) es1 →
  fetch_shape fs es fs' → fetch_shape fs (es ++ es1) fs'.
Proof.
  intros H0 (H1 & H2 & H3 & H4). rewrite Forall_forall in H0.
  repeat split; try done.
  - intros Hex. apply Exists_app in Hex as [Hex|Hex]; [by apply H1|].
    apply Exists_exists in Hex as (en & Hin & Hd).
    apply H0, local_not_download in Hin. congruence.
  - intros Hin. apply elem_of_app in Hin as [Hin|Hin]; [by apply H3|].
    by apply H0 in Hin.
  - intros Hall. apply Forall_app in Hall as [Hall _]. by apply H4.
Qed.

Lemma quiet_of_runs {A} (K : Entry → Prop) (Q : A → Prop) (m : M A) :
  (∀ en, K en → is_local en.1 = true) → runs K Q m → keeps_fs m → quiet m.
Proof.
  intros HK Hm Hfs w. destruct (Hm w) as (es & Hlog & HKs & _).
  exists es. repeat split; try done. eapply Forall_impl; eauto.
Qed.

Lemma tracks_quiet {A} (m : M A) : quiet m → tracks fetch_shape m.
Proof.
  intros Hm w. destruct (Hm w) as (es & Hlog & Hes & Hfs).
  exists es. split; [done|]. rewrite Hfs. by apply fetch_shape_local.
Qed.

Lemma tracks_quiet_then {A C} (m : M A) (k : A → M C) :
  quiet m → (∀ a, tracks fetch_shape (k a)) → tracks fetch_shape (m ≫= k).
Proof.
  intros Hm Hk w. rewrite bind_run.
  destruct (Hm w) as (es & Hlog & Hes & Hfs).
  destruct (m w) as [w1 [e|a]]; simpl in *.
  - exists es. split; [done|]. rewrite Hfs. by apply fetch_shape_local.
  - destruct (Hk a w1) as (es2 & Hlog2 & Hsh).
    exists (es ++ es2). rewrite Hlog2, Hlog, app_assoc. split; [done|].
    apply fetch_shape_local_l; [done|]. by rewrite <- Hfs.
Qed.

Lemma tracks_then_quiet {A C} (m : M A) (k : A → M C) :
  tracks fetch_shape m → (∀ a, quiet (k a)) → tracks fetch_shape (m ≫= k).
Proof.
  intros Hm Hk w. rewrite bind_run.
  destruct (Hm w) as (es & Hlog & Hsh).
  destruct (m w) as [w1 [e|a]]; simpl in *.
  - by exists es.
  - destruct (Hk a w1) as (es2 & Hlog2 & Hes2 & Hfs2).
    exists (es ++ es2). rewrite Hlog2, Hlog, app_assoc. split; [done|].
    rewrite Hfs2. by apply fetch_shape_local_r.
Qed.

Lemma tracks_finally_quiet {A} (body : M A) (exit : M unit) :
  tracks fetch_shape body → quiet exit → tracks fetch_shape (finally body exit).
Proof.
  intros Hb He w. unfold finally.
  destruct (Hb w) as (es & Hlog & Hsh).
  destruct (body w) as [w1 r]. simpl in *.
  destruct (He w1) as (es2 & Hlog2 & Hes2 & Hfs2).
  exists (es ++ es2). rewrite Hlog2, Hlog, app_assoc. split; [done|].
  rewrite Hfs2. by apply fetch_shape_local_r.
Qed.

Lemma call_run {A} (c : Call) (sem : Fs → Ext → Fs * Ext * result A) (w : World) :
  call c sem w =
  ({| w_fs := (sem (w_fs w) (w_ext w)).1.1; w_ext := (sem (w_fs w) (w_ext w)).1.2;
      w_log := w_log w ++ [(c, outcome (sem (w_fs w) (w_ext w)).2)] |},
   (sem (w_fs w) (w_ext w)).2).
Proof. unfold call. by destruct (sem (w_fs w) (w_ext w)) as [[fs' ext'] r]. Qed.

Lemma tracks_intro {A} (Φ : Fs → list Entry → Fs → Prop) (m : M A) :
  (∀ w w' r, m w = (w', r) →
             ∃ es, w_log w' = w_log w ++ es ∧ Φ (w_fs w) es (w_fs w')) →
  tracks Φ m.
Proof. intros H w. destruct (m w) as [w' r] eqn:E. by apply (H w w' r). Qed.

Ltac not_among H :=
  repeat (apply elem_of_cons in H as [H|H]; [by inversion H|]);
  by apply elem_of_nil in H.

(** the download: its first call is the request, and if the archive was
    unpacked it is gone afterwards *)
Lemma download_params_tracks (w w' : World) (r : result unit) :
  download_params w = (w', r) →
  ∃ o es, w_log w' = w_log w ++ (c_urlretrieve weights_url param_zip_path, o) :: es
          ∧ ((c_extractall param_dir, None) ∈ es →
             w_fs w' !! param_zip_path = None).
Proof.
  destruct w as [fs ext log].
  unfold download_params, urlretrieve, ZipFile, ZipFile_extractall, ZipFile_exit,
    os_remove, finally.
  rewrite bind_run, call_run. simpl.
  destruct (lib_fetch ext weights_url) as [ext1 [e|f]]; simpl.
  { intros [= <- <-]. eexists _, []. split; [reflexivity|].
    intros Hin. not_among Hin. }
  destruct (write_file fs param_zip_path f) as [fs1 [e|[]]] eqn:Ew; simpl.
  { intros [= <- <-]. eexists _, []. split; [reflexivity|].
    intros Hin. not_among Hin. }
  rewrite bind_run, call_run. simpl.
  destruct (zip_open fs1 param_zip_path) as [e|ms] eqn:Ez; simpl.
  { intros [= <- <-]. eexists _, _. split; [simpl; rewrite <- app_assoc; reflexivity|].
    intros Hin. not_among Hin. }
  assert (Hzip : fs1 !! param_zip_path ≠ Some Dir).
  { unfold zip_open in Ez. by destruct (fs1 !! param_zip_path) as [[]|]. }
  pose proof (extractall_not_dir param_dir ms param_zip_path fs1 Hzip) as Hx.
  rewrite bind_run, call_run. simpl.
  destruct (extractall fs1 param_dir ms) as [fs2 [e|[]]] eqn:Ex; simpl in *.
  { intros [= <- <-]. eexists _, _.
    split; [simpl; rewrite <- !app_assoc; reflexivity|].
    intros Hin. not_among Hin. }
  rewrite call_run. simpl.
  pose proof (remove_gone fs2 param_zip_path Hx) as Hr.
  destruct (remove fs2 param_zip_path) as [fs3 r3]; simpl in *.
  intros [= <- <-]. eexists _, _.
  split; [simpl; rewrite <- !app_assoc; reflexivity|]. done.
Qed.

Lemma path_exists_false (fs : Fs) (p : string) :
  path_exists fs p = false → fs !! p = None.
Proof. unfold path_exists. by destruct (fs !! p). Qed.

(** lines 211-216, run where the index file is as it was in [fs0] and
    [pre] has been called so far *)
Lemma index_check_tracks (fs0 : Fs) (pre : list Entry) (w w' : World)
      (r : result unit) :
  (ex ← os_path_exists param_index;
   if negb ex then download_params else mret tt) w = (w', r) →
  w_fs w !! param_index = fs0 !! param_index →
  (Forall (λ en, is_local en.1 = true) pre → w_fs w = fs0) →
  Forall (λ en, is_download en.1 = false) pre →
  (c_extractall param_dir, None) ∉ pre →
  ∃ es, w_log w' = w_log w ++ es ∧ fetch_shape fs0 (pre ++ es) (w_fs w').
Proof.
  intros E Hidx Hloc Hnd Hne. destruct w as [fs ext log]. simpl in *.
  unfold os_path_exists in E. rewrite bind_run, call_run in E. simpl in E.
  destruct (path_exists fs param_index) eqn:Ep; simpl in E.
  - injection E as <- <-. simpl.
    exists [(c_path_exists param_index, None)]. split; [done|].
    repeat split.
    + intros Hex. apply Exists_app in Hex as [Hex|Hex].
      * apply Exists_exists in Hex as (en & Hin & Hd).
        rewrite Forall_forall in Hnd. apply Hnd in Hin. congruence.
      * apply Exists_cons in Hex as [Hex|Hex]; [done|]. by apply Exists_nil in Hex.
    + by rewrite Hidx.
    + intros Hin. apply elem_of_app in Hin as [Hin|Hin]; [done|]. not_among Hin.
    + intros Hall. apply Forall_app in Hall as [Hall _]. by apply Hloc.
  - apply path_exists_false in Ep.
    destruct (download_params_tracks _ _ _ E) as (o & es & Hlog & Hex).
    simpl in Hlog. eexists. split; [rewrite Hlog, <- app_assoc; reflexivity|].
    repeat split.
    + intros _. by rewrite <- Hidx.
    + rewrite <- Hidx, Ep. by intros [? ?].
    + intros Hin. apply elem_of_app in Hin as [Hin|Hin]; [done|].
      apply elem_of_cons in Hin as [Hin|Hin]; [by inversion Hin|].
      apply elem_of_cons in Hin as [Hin|Hin]; [by inversion Hin|]. by apply Hex.
    + intros Hall. apply Forall_app in Hall as [_ Hall].
      apply Forall_cons in Hall as [_ Hall]. by apply Forall_cons in Hall as [Hall _].
Qed.

Lemma os_path_exists_run (p : string) (w : World) :
  os_path_exists p w
  = ({| w_fs := w_fs w; w_ext := w_ext w;
        w_log := w_log w ++ [(c_path_exists p, None)] |},
     inr (path_exists (w_fs w) p)).
Proof. reflexivity. Qed.

Lemma fetch_params_tracks : tracks fetch_shape fetch_params.
Proof.
  apply tracks_intro. intros [fs ext log] w' r E. simpl.
  unfold fetch_params in E.
  rewrite bind_run, os_path_exists_run in E. simpl in E.
  destruct (path_exists fs param_dir) eqn:Ed; simpl in E.
  - rewrite bind_run in E. simpl in E.
    destruct (index_check_tracks fs [(c_path_exists param_dir, None)] _ _ _ E)
      as (es & Hlog & Hsh); simpl; try done.
    + by repeat constructor.
    + intros Hin. not_among Hin.
    + simpl in Hlog. eexists. split; [rewrite Hlog, <- app_assoc; reflexivity|].
      done.
  - unfold os_mkdir in E. rewrite bind_run, call_run in E. simpl in E.
    pose proof (mkdir_lookup_ne fs _ _ param_dir_ne_index) as Hm.
    destruct (mkdir fs param_dir) as [fs1 [e|[]]] eqn:Em; simpl in *.
    + injection E as <- <-. simpl.
      eexists. split; [rewrite <- app_assoc; reflexivity|]. repeat split.
      * intros Hex. apply Exists_cons in Hex as [Hex|Hex]; [done|].
        apply Exists_cons in Hex as [Hex|Hex]; [done|]. by apply Exists_nil in Hex.
      * by rewrite Hm.
      * intros Hin. not_among Hin.
      * intros Hall. apply Forall_cons in Hall as [_ Hall].
        by apply Forall_cons in Hall as [Hall _].
    + destruct (index_check_tracks fs
                  [(c_path_exists param_dir, None); (c_mkdir param_dir, None)]
                  _ _ _ E) as (es & Hlog & Hsh); simpl; try done.
      * intros Hall. apply Forall_cons in Hall as [_ Hall].
        by apply Forall_cons in Hall as [Hall _].
      * by repeat constructor.
      * intros Hin. not_among Hin.
      * simpl in Hlog. eexists.
        split; [rewrite Hlog, <- !app_assoc; reflexivity|]. done.
Qed.

Lemma tracks_then_quiet_if {A C} (K : Entry → Prop) (Q : A → Prop)
      (m : M A) (k : A → M C) :
  runs K Q m → tracks fetch_shape m → (∀ a, Q a → quiet (k a)) →
  tracks fetch_shape (m ≫= k).
Proof.
  intros Hr Hm Hk w. rewrite bind_run.
  destruct (Hm w) as (es & Hlog & Hsh). destruct (Hr w) as (_ & _ & _ & _ & HQ).
  destruct (m w) as [w1 [e|a]]; simpl in *.
  - by exists es.
  - destruct (Hk a (HQ a eq_refl) w1) as (es2 & Hlog2 & Hes2 & Hfs2).
    exists (es ++ es2). rewrite Hlog2, Hlog, app_assoc. split; [done|].
    rewrite Hfs2. by apply fetch_shape_local_r.
Qed.

Lemma quiet_local {A} (Q : A → Prop) (m : M A) :
  runs K_local Q m → keeps_fs m → quiet m.
Proof. apply quiet_of_runs. apply K_local_is_local. Qed.

Lemma loading_branch_tracks (v : Vars) :
  tracks fetch_shape (loading_branch mnist v).
Proof.
  unfold loading_branch.
  apply tracks_quiet_then;
    [eapply quiet_local; [apply gen_data_runs|apply gen_data_keeps]|].
  intros d. apply tracks_quiet_then.
  { eapply quiet_of_runs with (K := λ en, is_local en.1 = true) (Q := λ _, True);
      [done|by apply runs_call|apply sim_loss_keeps]. }
  intros l. apply tracks_quiet_then;
    [eapply quiet_local; [apply sim_run_runs|apply sim_run_keeps]|].
  intros _. apply tracks_then_quiet; [apply fetch_params_tracks|].
  intros _. eapply quiet_of_runs
    with (K := λ en, is_local en.1 = true ∧ same_data en.1) (Q := λ _, True).
  - by intros en [H _].
  - eapply runs_bind; [apply sim_load_params_runs|]. intros _ _.
    by apply runs_ret.
  - apply keeps_fs_bind; [apply sim_load_params_keeps|]. intros. apply keeps_fs_ret.
Qed.

Lemma training_cell_keeps : keeps_fs (training_cell mnist false).
Proof.
  unfold training_cell.
  apply keeps_fs_bind; [apply time_time_keeps|]. intros t0.
  apply keeps_fs_bind; [apply Simulator_keeps|]. intros _.
  apply keeps_fs_finally; [|apply Simulator_exit_keeps].
  apply keeps_fs_bind; [apply training_branch_keeps|]. intros v.
  apply epilogue_keeps.
Qed.

Lemma training_cell_tracks (loading : bool) :
  tracks fetch_shape (training_cell mnist loading).
Proof.
  destruct loading.
  - unfold training_cell.
    apply tracks_quiet_then;
      [eapply quiet_local; [apply time_time_runs|apply time_time_keeps]|].
    intros t0. apply tracks_quiet_then;
      [eapply quiet_local; [apply Simulator_runs|apply Simulator_keeps]|].
    intros _. apply tracks_finally_quiet.
    + eapply tracks_then_quiet_if;
        [by apply loading_branch_runs|apply loading_branch_tracks|].
      intros v (Hc & Hl & Hd).
      eapply quiet_local; [apply epilogue_runs|apply epilogue_keeps].
      split; [lia|done].
    + eapply quiet_of_runs with (K := λ en, is_local en.1 = true) (Q := λ _, True);
        [done|by apply runs_call|apply Simulator_exit_keeps].
  - apply tracks_quiet. eapply quiet_local;
      [apply (training_cell_runs mnist false)|apply training_cell_keeps].
Qed.


End Download.

End DownloadFacts.

(** ** The three notebooks side by side *)

Module ScriptsFacts.
Import Scripts.

Example autoencoder_has_a_dataset : input_data_read_data_sets ∈ autoencoder.
Proof. unfold autoencoder. set_solver. Qed.

Lemma no_dataset_in_structure : LoadDataset ∉ omap phase structure.
Proof. vm_compute. intros H. by repeat (apply elem_of_cons in H as [H|H]; [done|]);
                               apply elem_of_nil in H. Qed.

(** C3, as the code has it: only the autoencoder notebook loads a dataset,
    builds a network, runs the simulator and plots, in this order.  The
    structured-representations notebook loads nothing: it builds, runs and
    plots, then builds a second network and hands it to the GUI
    visualiser.  The routed-sequencing notebook only builds its network,
    hands it to the visualiser and shows a stored image. *)
Theorem steps_of_the_three_scripts :
  phases autoencoder = four_steps
  ∧ phases structure = [ConstructNetwork; RunSimulation; PlotResults;
                        ConstructNetwork; Visualise; ShowImage]
  ∧ phases routed = [ConstructNetwork; Visualise; ShowImage].
Proof. by vm_compute. Qed.

(** against C3 as stated: the routed-sequencing script does not go through
    the four steps; it loads no dataset, runs no simulator and plots
    nothing. *)
Lemma routed_has_not_the_four_steps :
  phases routed ≠ four_steps
  ∧ (LoadDataset ∉ phases routed)
  ∧ (RunSimulation ∉ phases routed)
  ∧ (PlotResults ∉ phases routed).
Proof.
  vm_compute. repeat split; try done;
    intros H; repeat (apply elem_of_cons in H as [H|H]; [done|]);
    by apply elem_of_nil in H.
Qed.

End ScriptsFacts.

(** ** Rule table and weight cache *)

Module CacheFacts.
Import Py OS Autoencoder Spec SpecFacts CallFacts AutoencoderFacts DownloadFacts.
Import RoutedSequence.

Example successor_of_A : successor actions state A = Some B.
Proof. reflexivity. Qed.

Example vision_has_no_successor : successor actions vision START = None.
Proof. reflexivity. Qed.


End CacheFacts.

(** ** The code run on the small backend *)

Module DemoFacts.
Import Py OS Autoencoder Spec SpecFacts CallFacts AutoencoderFacts DownloadFacts.
Import CacheFacts Demo.

Lemma demo_reliable : reliable.
Proof. repeat split; intros; simpl; eauto. Qed.

Example decoder_size_out : size_out decoder = Some 784.
Proof. reflexivity. Qed.

Example encoder_layers :
  (Encoder_call (B := backend) new_Adapter 0%float [784] fresh).2 = inr [784; 256; 128].
Proof. reflexivity. Qed.

Example decoder_before_pre_build :
  (Decoder_call (B := backend) new_Adapter 0%float [128] fresh).2 = inl (AttributeError "size_out").
Proof. reflexivity. Qed.

Lemma Encoder_Decoder_two_layers_witness :
  size_out decoder = Some 784
  ∧ Decoder_call (B := backend) decoder 0%float [128] fresh
    = two_dense_layers [128] 256 784 fresh.
Proof.
  split; [reflexivity|].
  apply (Encoder_Decoder_two_layers (B := backend) decoder 0%float [128]). reflexivity.
Defined.

Lemma gen_data_same_array_witness :
  ∃ arr : list Z,
    ({[ inp := [0; 4] ]} : Dict) !! inp = Some arr
    ∧ ({[ output_probe := [0; 4] ]} : Dict) !! output_probe = Some arr
    ∧ ({[ inp := [0; 4] ]} : Dict) = {[ inp := arr ]}
    ∧ ({[ output_probe := [0; 4] ]} : Dict) = {[ output_probe := arr ]}.
Proof.
  apply (gen_data_same_array mnist 10 2 1 fresh).
  vm_compute. reflexivity.
Defined.

Example first_run_result : first_run.2 = inr first_vars.
Proof. vm_compute. reflexivity. Qed.

Lemma losses_and_counted_witness :
  length (losses first_vars) = 2%nat ∧ counted first_vars = 1.
Proof.
  apply (losses_and_counted mnist true fresh first_vars).
  vm_compute. reflexivity.
Defined.




Example offline_run_raises : offline_run.2 = inl (Exn "URLError" weights_url).
Proof. vm_compute. reflexivity. Qed.

Example garbled_run_raises :
  garbled_run.2 = inl (Exn "BadZipFile" param_zip_path)
  ∧ w_fs garbled_run.1 !! param_zip_path = Some Data
  ∧ w_fs garbled_run.1 !! param_index = None.
Proof. vm_compute. done. Qed.


Lemma initial_in_step : outer_inv 0 0 (initial_vars 0%float).
Proof. repeat split. simpl. lia. Qed.



End DemoFacts.

(** ** class Encoder / class Decoder: pre_build and the call after it *)

Module AdapterFacts.
Import Py OS Autoencoder Spec SpecFacts.

Section Adapter.
Context {B : Backend}.

Lemma index_nonneg {A} (l : list A) (i : nat) :
  index l (Z.of_nat i) = match l !! i with Some x => inr x | None => inl IndexError end.
Proof.
  unfold index. destruct (Z.of_nat i <? 0) eqn:E; [apply Z.ltb_lt in E; lia|]. rewrite E.
  by rewrite Nat2Z.id.
Qed.

Lemma index_0 {A} (l : list A) :
  index l 0 = match l !! 0%nat with Some x => inr x | None => inl IndexError end.
Proof. exact (index_nonneg l 0). Qed.

Lemma index_1 {A} (l : list A) :
  index l 1 = match l !! 1%nat with Some x => inr x | None => inl IndexError end.
Proof. exact (index_nonneg l 1). Qed.

(** [pre_build] returns exactly when both shapes have at least two entries,
    and then the three attributes are [shape_in[0]], [shape_in[1]] and
    [shape_out[1]], whatever they were before; otherwise it raises
    IndexError. *)
Theorem pre_build_returns_iff (self : Adapter) (shape_in shape_out : list Z) :
  match pre_build self shape_in shape_out with
  | (self', inr _) =>
      (2 ≤ length shape_in)%nat ∧ (2 ≤ length shape_out)%nat
      ∧ n_mini self' = shape_in !! 0%nat
      ∧ size_in self' = shape_in !! 1%nat
      ∧ size_out self' = shape_out !! 1%nat
  | (_, inl e) =>
      e = IndexError ∧ ((length shape_in < 2)%nat ∨ (length shape_out < 2)%nat)
  end.
Proof.
  unfold pre_build.
  rewrite (index_0 shape_in), (index_1 shape_in), (index_1 shape_out).
  destruct shape_in as [|a [|b si]]; simpl; try (by split; [done|left; simpl; lia]).
  destruct shape_out as [|c [|d so]]; simpl; try (by split; [done|right; simpl; lia]).
  repeat split; lia.
Qed.

(** A [pre_build] that fails on [shape_out] has already stored
    [shape_in[0]] and [shape_in[1]]; [size_out] is left as it was. *)
Theorem pre_build_fails_half_way (self : Adapter) (shape_in shape_out : list Z)
        (a b : Z) (rest : list Z) :
  shape_in = a :: b :: rest → (length shape_out < 2)%nat →
  pre_build self shape_in shape_out
  = ({| n_mini := Some a; size_in := Some b; size_out := size_out self |},
     inl IndexError).
Proof.
  intros -> Hso. unfold pre_build.
  rewrite (index_0 (a :: b :: rest)), (index_1 (a :: b :: rest)), (index_1 shape_out).
  simpl.
  destruct shape_out as [|c [|d so]]; simpl in *; try done. lia.
Qed.

(** After a [pre_build] that returned, [Decoder.__call__] builds a layer of
    256 units and then one of [shape_out[1]] units. *)
Theorem Decoder_after_pre_build (self self' : Adapter) (shape_in shape_out : list Z)
        (t : float) (x : Tensor) (w : World) :
  pre_build self shape_in shape_out = (self', inr tt) →
  ∃ n, shape_out !! 1%nat = Some n
       ∧ Decoder_call self' t x w = two_dense_layers x 256 n w.
Proof.
  intros H. unfold pre_build in H.
  rewrite (index_0 shape_in), (index_1 shape_in), (index_1 shape_out) in H.
  destruct shape_in as [|a [|b si]]; simpl in H; try done.
  destruct shape_out as [|c [|n so]]; simpl in H; try done.
  injection H as <-. exists n. split; [done|].
  unfold Decoder_call, two_dense_layers, n_hidden_1. simpl. rewrite !bind_run.
  destruct (fully_connected x 256 w) as [w1 [e|d1]]; [done|]. simpl.
  change ((dense ← fully_connected d1 n; mret dense) w1 = fully_connected d1 n w1).
  rewrite bind_run. by destruct (fully_connected d1 n w1) as [w2 [e|d2]].
Qed.

(** Before [pre_build], [Decoder.__call__] never returns: the first layer
    is requested all the same, and if the library returns it the call
    raises AttributeError, the world being the one the first layer call
    left. *)
Theorem Decoder_before_pre_build (self : Adapter) (t : float) (x : Tensor) (w : World) :
  size_out self = None →
  (Decoder_call self t x w).1 = (fully_connected x 256 w).1
  ∧ (Decoder_call self t x w).2
    = match (fully_connected x 256 w).2 with
      | inl e => inl e
      | inr _ => inl (AttributeError "size_out")
      end
  ∧ new_calls (Decoder_call self t x) w
    = [(c_fully_connected x 256, outcome (fully_connected x 256 w).2)].
Proof.
  intros Hs. unfold new_calls, Decoder_call, n_hidden_1. rewrite Hs, bind_run.
  assert (Hlog : w_log (fully_connected x 256 w).1
                 = w_log w ++ [(c_fully_connected x 256,
                                outcome (fully_connected x 256 w).2)]).
  { unfold fully_connected, call.
    by destruct (lib_fully_connected (w_ext w) x 256) as [ext' r]. }
  destruct (fully_connected x 256 w) as [w1 [e|d1]]; simpl in *;
    rewrite Hlog, drop_app_length; done.
Qed.

End Adapter.

End AdapterFacts.

(** ** htbab_tutorials/ch7-spa-sequence-routed.ipynb: start over time *)

Module StartFacts.
Import RoutedSequence.

Ltac order_cases :=
  repeat match goal with
         | H : context [(?a ?= ?b)%Z] |- _ => destruct (Z.compare_spec a b); simpl in H
         | |- context [(?a ?= ?b)%Z] => destruct (Z.compare_spec a b); simpl
         | H : context [Pos.compare_cont Eq ?a ?b] |- _ =>
             change (Pos.compare_cont Eq a b) with (Pos.compare a b) in H;
             destruct (Pos.compare_spec a b); simpl in H
         | |- context [Pos.compare_cont Eq ?a ?b] =>
             change (Pos.compare_cont Eq a b) with (Pos.compare a b);
             destruct (Pos.compare_spec a b); simpl
         end.

Lemma SFcompare_le_lt_trans (x y z : spec_float) :
  SFleb x y = true → SFltb y z = true → SFltb x z = true.
Proof.
  unfold SFleb, SFltb.
  destruct x as [sx | sx | | sx mx ex], y as [sy | sy | | sy my ey],
    z as [sz | sz | | sz mz ez]; simpl; try discriminate;
    try (destruct sx; simpl; try discriminate; try reflexivity);
    try (destruct sy; simpl; try discriminate; try reflexivity);
    try (destruct sz; simpl; try discriminate; try reflexivity);
    intros H1 H2; order_cases; subst; try discriminate; try reflexivity; try lia.
Qed.

(** The visual input, once withdrawn, does not come back: if [start] gives
    ['0'] at a time [t], it gives ['0'] at every later time; and if it gives
    the input pointer at a time [t'], it gave it at every earlier time. *)
Theorem start_stays_withdrawn (t t' : float) :
  (t <=? t')%float = true →
  (start t = "0" → start t' = "0")
  ∧ (start t' = "0.8*START+D" → start t = "0.8*START+D").
Proof.
  intros Hle. unfold start.
  destruct (t' <? lit_0_4)%float eqn:E'.
  - assert (E : (t <? lit_0_4)%float = true).
    { rewrite ltb_spec. rewrite leb_spec in Hle. rewrite ltb_spec in E'.
      by apply (SFcompare_le_lt_trans _ (Prim2SF t')). }
    rewrite E. split; [discriminate|done].
  - split; [done|discriminate].
Qed.

Lemma start_stays_withdrawn_witness :
  (0.5 <=? 2)%float = true ∧ start 0.5%float = "0" ∧ start 2%float = "0".
Proof.
  split; [reflexivity|]. split; [reflexivity|].
  apply (start_stays_withdrawn 0.5%float 2%float); reflexivity.
Defined.

End StartFacts.

(** ** Rules for [traced] *)

Module TraceFacts.
Import Py OS Autoencoder Spec SpecFacts Trace.

Section Rules.
Context {B : Backend}.

Lemma traced_ret {A} (a : A) (R : list Entry → result A → Prop) :
  R [] (inr a) → traced (mret a) R.
Proof. intros H w. exists []. simpl. by rewrite app_nil_r. Qed.

Lemma traced_raise {A} (e : exn) (R : list Entry → result A → Prop) :
  R [] (inl e) → traced (raise e) R.
Proof. intros H w. exists []. simpl. by rewrite app_nil_r. Qed.

Lemma traced_weaken {A} (m : M A) (R R' : list Entry → result A → Prop) :
  traced m R → (∀ es r, R es r → R' es r) → traced m R'.
Proof. intros H HR w. destruct (H w) as (es & Hlog & Hes). exists es. eauto. Qed.

Lemma traced_bind {A C} (m : M A) (k : A → M C)
      (R1 : list Entry → result A → Prop) (R : list Entry → result C → Prop) :
  traced m R1 →
  (∀ es e, R1 es (inl e) → R es (inl e)) →
  (∀ es1 a, R1 es1 (inr a) → traced (k a) (λ es2 r, R (es1 ++ es2) r)) →
  traced (m ≫= k) R.
Proof.
  intros Hm Hf Hk w. rewrite bind_run.
  destruct (Hm w) as (es1 & Hlog & H1).
  destruct (m w) as [w1 [e|a]]; simpl in *.
  - exists es1. split; [done|]. by apply Hf.
  - destruct (Hk es1 a H1 w1) as (es2 & Hlog2 & H2).
    exists (es1 ++ es2). by rewrite Hlog2, Hlog, app_assoc.
Qed.

Lemma traced_call {A} (c : Call) (sem : Fs → Ext → Fs * Ext * result A)
      (R : list Entry → result A → Prop) :
  (∀ fs ext, R [(c, outcome (sem fs ext).2)] (sem fs ext).2) →
  traced (call c sem) R.
Proof.
  intros H w. unfold call. specialize (H (w_fs w) (w_ext w)).
  destruct (sem (w_fs w) (w_ext w)) as [[fs' ext'] r]. simpl in *.
  by exists [(c, outcome r)].
Qed.

Lemma traced_finally {A} (body : M A) (c : Call) (sem : Fs → Ext → Fs * Ext)
      (R R' : list Entry → result A → Prop) :
  traced body R →
  (∀ es r, R es r → R' (es ++ [(c, None)]) r) →
  traced (finally body (call c (λ fs ext, (sem fs ext, inr tt)))) R'.
Proof.
  intros Hb HR w. unfold finally.
  destruct (Hb w) as (es & Hlog & Hes).
  destruct (body w) as [w1 r]. simpl in *.
  unfold call. destruct (sem (w_fs w1) (w_ext w1)) as [fs' ext']. simpl.
  exists (es ++ [(c, None)]). rewrite Hlog, app_assoc. split; [done|]. by apply HR.
Qed.

(** a loop: [I j es s] after [j] rounds that returned, [F es e] once a
    round raised [e] *)
Lemma traced_for_from {S} (body : Z → S → M S) (I : nat → list Entry → S → Prop)
      (F : list Entry → exn → Prop) (start : Z) (n : nat) :
  (∀ j es s, (j < n)%nat → I j es s →
             traced (body (start + Z.of_nat j) s)
                    (λ es2 r, match r with
                              | inl e => F (es ++ es2) e
                              | inr s' => I (Datatypes.S j) (es ++ es2) s'
                              end)) →
  ∀ n' j es0 s, (j + n' = n)%nat → I j es0 s →
    traced (for_range body (start + Z.of_nat j) n' s)
           (λ es r, match r with
                    | inl e => F (es0 ++ es) e
                    | inr s' => I n (es0 ++ es) s'
                    end).
Proof.
  intros Hb. induction n' as [|n' IH]; intros j es0 s Hj Hs; simpl.
  - apply traced_ret. rewrite app_nil_r. by replace n with j by lia.
  - eapply traced_bind; [apply (Hb j es0 s); [lia|done]| |].
    + by intros es e He.
    + intros es1 s' Hs'. simpl in Hs'.
      replace (start + Z.of_nat j + 1) with (start + Z.of_nat (Datatypes.S j)) by lia.
      eapply traced_weaken; [apply (IH (Datatypes.S j) (es0 ++ es1) s'); [lia|done]|].
      intros es r. simpl. by rewrite app_assoc.
Qed.

Lemma traced_for {S} (body : Z → S → M S) (I : nat → list Entry → S → Prop)
      (F : list Entry → exn → Prop) (start : Z) (n : nat) (s : S) :
  (∀ j es s, (j < n)%nat → I j es s →
             traced (body (start + Z.of_nat j) s)
                    (λ es2 r, match r with
                              | inl e => F (es ++ es2) e
                              | inr s' => I (Datatypes.S j) (es ++ es2) s'
                              end)) →
  I 0%nat [] s →
  traced (for_range body start n s)
         (λ es r, match r with inl e => F es e | inr s' => I n es s' end).
Proof.
  intros Hb Hs.
  pose proof (traced_for_from body I F start n Hb n 0%nat [] s eq_refl Hs) as H.
  by replace (start + Z.of_nat 0) with start in H by lia.
Qed.

Lemma n_calls_app (p : Call → bool) (es1 es2 : list Entry) :
  n_calls p (es1 ++ es2) = (n_calls p es1 + n_calls p es2)%nat.
Proof. unfold n_calls. by rewrite filter_app, length_app. Qed.

Lemma n_calls_nil (p : Call → bool) :
  n_calls p ([] : list (Call * option exn)) = 0%nat.
Proof. reflexivity. Qed.

Lemma n_calls_cons (p : Call → bool) (c : Call) (o : option exn)
      (es : list (Call * option exn)) :
  n_calls p ((c, o) :: es) = ((if p c then 1 else 0) + n_calls p es)%nat.
Proof.
  unfold n_calls. rewrite filter_cons. simpl.
  destruct (p c); by destruct (decide _).
Qed.

Lemma n_calls_nil_entry (p : Call → bool) : n_calls p (@nil Entry) = 0%nat.
Proof. reflexivity. Qed.

Lemma n_calls_cons_entry (p : Call → bool) (c : Call) (o : option exn)
      (es : list Entry) :
  n_calls p (@cons Entry (c, o) es) = ((if p c then 1 else 0) + n_calls p es)%nat.
Proof. apply n_calls_cons. Qed.

Lemma n_calls_none (p : Call → bool) (es : list Entry) :
  Forall (λ en, p en.1 = false) es → n_calls p es = 0%nat.
Proof.
  unfold n_calls. induction 1 as [|en es Hen _ IH]; [done|].
  rewrite filter_cons. destruct (decide (p en.1 = true)); [congruence|done].
Qed.

End Rules.

Ltac count :=
  repeat first [ rewrite n_calls_app | rewrite n_calls_cons | rewrite n_calls_nil
               | rewrite n_calls_cons_entry | rewrite n_calls_nil_entry
               | rewrite length_app | progress simpl ].

End TraceFacts.

(** ** gen_data, call by call *)

Module BatchFacts.
Import Py OS Autoencoder Spec SpecFacts Trace TraceFacts.

Section Batch.
Context {B : Backend} (mnist : Dataset).

Lemma PresentInput_run_traced (imgs : list Image) (pt t : float) :
  traced (PresentInput_run imgs pt t)
         (λ es r, es = [(c_PresentInput_run imgs pt t, outcome r)]
                  ∧ r = lib_present_input_run imgs pt t).
Proof. by apply traced_call. Qed.

Lemma asarray_traced (l : list Array) :
  traced (asarray l) (λ es r, es = [(c_asarray l, None)] ∧ r = inr (lib_asarray l)).
Proof. by apply traced_call. Qed.

Lemma gen_data_traced (steps batchsize pos : Z) :
  traced (gen_data mnist steps batchsize pos)
         (λ es r,
            Forall (batch_call mnist steps batchsize pos) es
            ∧ r = match batch mnist steps batchsize pos with
                  | inl e => inl e
                  | inr b => inr (pair_of b)
                  end
            ∧ (∀ d, r = inr d →
                    n_calls is_present es = Z.to_nat batchsize
                    ∧ length es = (Z.to_nat batchsize + 2)%nat)).
Proof.
  unfold gen_data, batch.
  set (n := Z.to_nat batchsize).
  set (K := batch_call mnist steps batchsize pos).
  eapply traced_bind.
  - apply (traced_for _
             (λ j es acc,
                batch_list mnist steps pos (Z.of_nat j) (n - j) acc
                = batch_list mnist steps pos 0 n []
                ∧ Forall K es ∧ n_calls is_present es = j ∧ length es = j ∧ (j ≤ n)%nat)
             (λ es e, batch_list mnist steps pos 0 n [] = inl e ∧ Forall K es)).
    + intros j es acc Hj (Hb & HK & Hn & Hl & _).
      replace (n - j)%nat with (Datatypes.S (n - Datatypes.S j)) in Hb by lia.
      simpl in Hb. rewrite Z.add_0_l.
      eapply traced_bind; [apply PresentInput_run_traced| |].
      * intros es1 e [-> He]. simpl. unfold run_time in Hb.
        rewrite <- He in Hb. split; [done|].
        apply Forall_app. split; [done|]. repeat constructor.
        exists (Z.of_nat j). subst n. split; [lia|done].
      * intros es1 a [-> He]. apply traced_ret. rewrite app_nil_r.
        unfold run_time in Hb. rewrite <- He in Hb.
        replace (Z.of_nat j + 1) with (Z.of_nat (Datatypes.S j)) in Hb by lia.
        count.
        repeat split; try done; try lia.
        apply Forall_app. split; [done|]. repeat constructor.
        exists (Z.of_nat j). subst n. split; [lia|done].
    + rewrite Nat.sub_0_r. repeat split; try done. lia.
  - intros es e [He HK]. rewrite He. repeat split; try done.
  - intros es1 acc (Hb & HK & Hn & Hl & _). rewrite Nat.sub_diag in Hb. simpl in Hb.
    rewrite <- Hb.
    eapply traced_bind; [apply asarray_traced| |]; [by intros ? ? [_ ?]|].
    intros es2 a1 [-> [= ->]].
    eapply traced_bind; [apply asarray_traced| |]; [by intros ? ? [_ ?]|].
    intros es3 a2 [-> [= ->]].
    apply traced_ret. rewrite app_nil_r. count.
    repeat split; try done; try lia.
    apply Forall_app. split; [done|]. by repeat constructor.
Qed.



(** An empty batch: for [batchsize <= 0] no image is read, and both
    dictionaries hold [np.asarray([])]. *)
Theorem gen_data_empty_batch (steps batchsize pos : Z) (w : World) :
  batchsize ≤ 0 →
  (gen_data mnist steps batchsize pos w).2 = inr (pair_of (lib_asarray []))
  ∧ new_calls (gen_data mnist steps batchsize pos) w
    = [(c_asarray [], None); (c_asarray [], None)].
Proof.
  intros Hb. unfold new_calls, gen_data.
  replace (Z.to_nat batchsize) with 0%nat by lia. simpl.
  split; [done|]. rewrite <- app_assoc. by rewrite drop_app_length.
Qed.

End Batch.

End BatchFacts.

(** ** The training path, call by call *)

Module TrainingFacts.
Import Py OS Autoencoder Spec SpecFacts Trace TraceFacts BatchFacts.

Section Training.
Context {B : Backend} (mnist : Dataset).

Lemma n_iters_value : n_iters = 859.
Proof. reflexivity. Qed.

Lemma traced_one {A} (c : Call) (sem : Fs → Ext → Fs * Ext * result A) :
  traced (call c sem) (λ es r, es = [(c, outcome r)]).
Proof. by apply traced_call. Qed.


(** the calls of [gen_data] at a training position are training calls *)
Lemma batch_call_training (L : Dict * Dict → Prop) (pos : Z) (en : Entry) :
  0 ≤ pos → pos + n_examples ≤ n_examples * n_iters →
  batch_call mnist steps n_examples pos en → training_call mnist L en.
Proof.
  intros H0 H1. unfold batch_call, training_call. destruct en as [c o]. simpl.
  destruct c; try done.
  intros (-> & -> & k & Hk & ->). repeat split; try done.
  exists (pos + k). split; [lia|done].
Qed.

Lemma gen_data_training (L : Dict * Dict → Prop) (pos : Z) :
  0 ≤ pos → pos + n_examples ≤ n_examples * n_iters →
  traced (gen_data mnist steps n_examples pos)
         (λ es r, Forall (training_call mnist L) es
                  ∧ n_calls is_loss es = 0%nat ∧ n_calls is_run es = 0%nat
                  ∧ n_calls is_train es = 0%nat
                  ∧ ∀ d, r = inr d → on_batch mnist pos d).
Proof.
  intros H0 H1. eapply traced_weaken; [apply gen_data_traced|].
  intros es r (HK & Hr & _).
  assert (Hn : ∀ p, (∀ imgs pt t, p (c_PresentInput_run imgs pt t) = false) →
                    (∀ l, p (c_asarray l) = false) → n_calls p es = 0%nat).
  { intros p Hp1 Hp2. apply n_calls_none.
    eapply Forall_impl; [apply HK|]. intros [c o]. unfold batch_call. simpl.
    by destruct c. }
  repeat split; try (by apply Hn).
  - eapply Forall_impl; [apply HK|]. intros en. by apply batch_call_training.
  - intros d Hd. rewrite Hd in Hr. unfold on_batch.
    destruct (batch mnist steps n_examples pos) as [e|b]; [done|].
    injection Hr as ->. by exists b.
Qed.

Lemma train_entry (L : Dict * Dict → Prop) (i : Z) (d : Dict * Dict) (o : option exn) :
  0 ≤ i < n_iters → on_batch mnist (n_examples * i) d →
  training_call mnist L (c_sim_train d.1 d.2 2, o).
Proof. intros Hi Hd. split; [done|]. exists i. by destruct d. Qed.

Lemma loss_entry (L : Dict * Dict → Prop) (d : Dict * Dict) (o : option exn) :
  L d → training_call mnist L (c_sim_loss d.1 d.2 "mse", o).
Proof. intros Hd. split; [done|]. by destruct d. Qed.

Ltac shape :=
  repeat first [apply Forall_nil | apply Forall_cons; split | apply Forall_app; split];
  try done;
  try (by eapply train_entry); try (by eapply loss_entry; eauto).

Ltac fin := count; repeat split; count; try done; try lia; shape.

Lemma iter_body_traced (L : Dict * Dict → Prop) (opt : Optimizer) (e i : Z) (v : Vars) :
  0 ≤ i < n_iters →
  traced (iter_body mnist opt e i v)
         (λ es r, Forall (training_call mnist L) es
                  ∧ n_calls is_loss es = 0%nat ∧ n_calls is_run es = 0%nat
                  ∧ ∀ v', r = inr v' →
                          n_calls is_train es = 1%nat ∧ unchanged v v'
                          ∧ ∃ d, dicts v' = Some d ∧ on_batch mnist (n_examples * i) d).
Proof.
  intros Hi. unfold iter_body.
  eapply traced_bind; [apply traced_one| |].
  { intros es ? ->. fin. }
  intros es1 [] ->.
  eapply traced_bind; [apply (gen_data_training L (n_examples * i))| |];
    [unfold n_examples in *; lia|rewrite n_iters_value in *; unfold n_examples; lia| |].
  { intros es ? (HK & Hl & Hr & Ht & _). fin. }
  intros es2 d (HK & Hl & Hr & Ht & Hd). specialize (Hd d eq_refl).
  eapply traced_bind; [apply traced_one| |].
  { intros es ? ->. fin. }
  intros es3 [] ->.
  eapply traced_bind; [apply traced_one| |].
  { intros es ? ->. fin. }
  intros es4 t1 ->.
  eapply traced_bind; [apply traced_one| |].
  { intros es ? ->. fin. }
  intros es5 t2 ->.
  eapply traced_bind; [apply traced_one| |].
  { intros es ? ->. fin. }
  intros es6 [] ->. apply traced_ret. rewrite app_nil_r.
  fin; simplify_eq; try done. by exists d.
Qed.

Lemma inner_loop_traced (L : Dict * Dict → Prop) (opt : Optimizer) (e : Z) (v : Vars) :
  traced (for_range (iter_body mnist opt e) 0 (Z.to_nat n_iters) v)
         (λ es r, Forall (training_call mnist L) es
                  ∧ n_calls is_loss es = 0%nat ∧ n_calls is_run es = 0%nat
                  ∧ ∀ v', r = inr v' →
                          n_calls is_train es = Z.to_nat n_iters ∧ unchanged v v'
                          ∧ ∃ d, dicts v' = Some d ∧ on_batch mnist last_batch d).
Proof.
  eapply traced_weaken.
  - apply (traced_for _
             (λ j es v',
                Forall (training_call mnist L) es
                ∧ n_calls is_loss es = 0%nat ∧ n_calls is_run es = 0%nat
                ∧ n_calls is_train es = j ∧ unchanged v v'
                ∧ ((0 < j)%nat →
                   ∃ d, dicts v' = Some d
                        ∧ on_batch mnist (n_examples * (Z.of_nat j - 1)) d))
             (λ es e, Forall (training_call mnist L) es
                      ∧ n_calls is_loss es = 0%nat ∧ n_calls is_run es = 0%nat)).
    + intros j es v1 Hj (HK & Hl & Hr & Ht & (Hu1 & Hu2 & Hu3) & _).
      rewrite Z.add_0_l.
      eapply traced_weaken; [apply (iter_body_traced L opt e (Z.of_nat j) v1); lia|].
      intros es2 [e2|v2] (HK2 & Hl2 & Hr2 & H2); [fin|].
      destruct (H2 v2 eq_refl) as (Ht2 & (Hv1 & Hv2 & Hv3) & d & Hd1 & Hd2).
      fin; try congruence.
      exists d. split; [done|].
      by replace (Z.of_nat (Datatypes.S j) - 1) with (Z.of_nat j) by lia.
    + repeat split; try done. lia.
  - intros es [e1|v1]; [by intros (HK & Hl & Hr)|].
    intros (HK & Hl & Hr & Ht & Hu & Hd).
    split; [done|]. split; [done|]. split; [done|]. intros v' [= <-].
    destruct Hd as (d & Hd1 & Hd2); [rewrite n_iters_value; lia|].
    split; [done|]. split; [done|]. exists d. split; [done|].
    unfold last_batch. by rewrite Z2Nat.id in Hd2 by (rewrite n_iters_value; lia).
Qed.

Lemma index_last {A} (ls : list A) (b a : A) :
  index (ls ++ [b; a]) (Z.of_nat (length ls) + 1) = inr a
  ∧ index (ls ++ [b; a]) (Z.of_nat (length ls)) = inr b.
Proof.
  unfold index. split.
  - destruct (Z.of_nat (length ls) + 1 <? 0) eqn:E; [apply Z.ltb_lt in E; lia|].
    rewrite E. replace (Z.to_nat (Z.of_nat (length ls) + 1)) with (length ls + 1)%nat by lia.
    by rewrite lookup_app_r, Nat.add_sub' by lia.
  - destruct (Z.of_nat (length ls) <? 0) eqn:E; [apply Z.ltb_lt in E; lia|].
    rewrite E, Nat2Z.id. by rewrite lookup_app_r, Nat.sub_diag by lia.
Qed.

Lemma last_delta_traced (v : Vars) (ls : list Loss) (b a : Loss) :
  losses v = ls ++ [b; a] → counted v = Z.of_nat (length ls) + 1 →
  traced (last_delta v) (λ es r, es = [] ∧ r = inr (loss_sub a b)).
Proof.
  intros Hl Hc. unfold last_delta. rewrite Hl, Hc.
  replace (Z.of_nat (length ls) + 1 - 1) with (Z.of_nat (length ls)) by lia.
  destruct (index_last ls b a) as [-> ->]. simpl.
  intros w. exists []. simpl. by rewrite app_nil_r.
Qed.

Lemma delta_of_last (ls : list Loss) (b a : Loss) :
  delta_of (ls ++ [b; a]) = NLoss (loss_sub a b).
Proof. unfold delta_of. by rewrite rev_app_distr. Qed.

(** the [if counted>0:] block inside the outer loop, entered with the new
    loss already appended *)
Lemma delta_block_traced (L : Dict * Dict → Prop) (v1 : Vars) (ls : list Loss) (l : Loss) :
  losses v1 = ls ++ [l] → counted v1 = Z.of_nat (length ls) →
  delta v1 = delta_of ls →
  traced (if 0 <? counted v1
          then x ← last_delta v1;
               let v := set_delta v1 (delta v1) (NLoss x) in
               x ← last_delta v; print (PDelta x);; mret v
          else mret v1)
         (λ es r, Forall (training_call mnist L) es
                  ∧ n_calls is_loss es = 0%nat ∧ n_calls is_run es = 0%nat
                  ∧ n_calls is_train es = 0%nat
                  ∧ ∀ v2, r = inr v2 →
                          losses v2 = losses v1 ∧ counted v2 = counted v1
                          ∧ dicts v2 = dicts v1 ∧ delta v2 = delta_of (losses v1)).
Proof.
  intros Hl Hc Hd. destruct (0 <? counted v1) eqn:Hpos.
  - apply Z.ltb_lt in Hpos.
    destruct ls as [|b0 ls0] using rev_ind; [simpl in Hc; lia|]. clear IHls0.
    rewrite <- app_assoc in Hl. simpl in Hl.
    rewrite length_app in Hc. simpl in Hc.
    eapply traced_bind; [apply (last_delta_traced v1 ls0 b0 l); [done|lia]| |].
    { by intros es e [_ ?]. }
    intros es1 x [-> [= ->]].
    eapply traced_bind;
      [apply (last_delta_traced (set_delta v1 (delta v1) (NLoss (loss_sub l b0)))
                                ls0 b0 l); [done|simpl; lia]| |].
    { by intros es e [_ ?]. }
    intros es2 x [-> [= ->]].
    eapply traced_bind; [apply traced_one| |].
    { intros es ? ->. fin. }
    intros es3 [] ->. apply traced_ret. fin; simplify_eq; try done.
    simpl. by rewrite Hl, delta_of_last.
  - apply Z.ltb_ge in Hpos. apply traced_ret.
    assert (ls = []) as -> by (destruct ls; [done|simpl in Hc; lia]).
    fin; simplify_eq; try done. by rewrite Hd, Hl.
Qed.

Lemma epoch_body_traced (L : Dict * Dict → Prop) (opt : Optimizer) (e : Z) (v : Vars) :
  (∀ d, on_batch mnist 0 d → L d) →
  counted v = Z.of_nat (length (losses v)) → delta v = delta_of (losses v) →
  traced (epoch_body mnist opt e v)
         (λ es r, Forall (training_call mnist L) es
                  ∧ ∀ v', r = inr v' →
                          n_calls is_loss es = 1%nat ∧ n_calls is_run es = 1%nat
                          ∧ n_calls is_train es = Z.to_nat n_iters
                          ∧ (∃ l, losses v' = losses v ++ [l])
                          ∧ counted v' = counted v + 1
                          ∧ delta v' = delta_of (losses v')
                          ∧ ∃ d, dicts v' = Some d ∧ on_batch mnist last_batch d).
Proof.
  intros HL Hc Hd. unfold epoch_body.
  eapply traced_bind; [apply (gen_data_training L 0)| |];
    [done|rewrite n_iters_value; unfold n_examples; lia| |].
  { intros es ? (HK & _). fin. }
  intros es1 d (HK1 & Hl1 & Hr1 & Ht1 & Hd1). specialize (Hd1 d eq_refl).
  eapply traced_bind; [apply traced_one| |].
  { intros es ? ->. fin. }
  intros es2 l ->.
  eapply traced_bind; [apply traced_one| |].
  { intros es ? ->. fin. }
  intros es3 [] ->.
  eapply traced_bind;
    [apply (delta_block_traced L
              (set_losses (set_dicts v d) (losses (set_dicts v d) ++ [l]))
              (losses v) l); done| |].
  { intros es ? (HK & _). fin. }
  intros es4 v2 (HK4 & Hl4 & Hr4 & Ht4 & H4).
  destruct (H4 v2 eq_refl) as (Hv1 & Hv2 & Hv3 & Hv4).
  simpl in Hv1, Hv2, Hv3, Hv4. clear H4.
  eapply traced_bind; [apply traced_one| |].
  { intros es ? ->. fin. }
  intros es5 [] ->.
  eapply traced_weaken; [apply (inner_loop_traced L opt e)|].
  intros es6 [e6|v6] (HK6 & Hl6 & Hr6 & H6); [fin|].
  destruct (H6 v6 eq_refl) as (Ht6 & (Hu1 & Hu2 & Hu3) & Hd6).
  simpl in Hu1, Hu2, Hu3. clear H6.
  fin; simplify_eq; try done; try lia.
  - exists l. congruence.
  - congruence.
Qed.

Lemma epochs_traced (L : Dict * Dict → Prop) (opt : Optimizer) (n : nat) (v : Vars) :
  (∀ d, on_batch mnist 0 d → L d) →
  losses v = [] → counted v = 0 → delta v = NInt 1 →
  traced (for_range (epoch_body mnist opt) 0 n v)
         (λ es r, Forall (training_call mnist L) es
                  ∧ ∀ v', r = inr v' →
                          n_calls is_loss es = n ∧ n_calls is_run es = n
                          ∧ n_calls is_train es = (n * Z.to_nat n_iters)%nat
                          ∧ length (losses v') = n ∧ counted v' = Z.of_nat n
                          ∧ delta v' = delta_of (losses v')
                          ∧ ((0 < n)%nat →
                             ∃ d, dicts v' = Some d ∧ on_batch mnist last_batch d)).
Proof.
  intros HL Hl Hc Hd. eapply traced_weaken.
  - apply (traced_for _
             (λ j es v',
                Forall (training_call mnist L) es
                ∧ n_calls is_loss es = j ∧ n_calls is_run es = j
                ∧ n_calls is_train es = (j * Z.to_nat n_iters)%nat
                ∧ length (losses v') = j ∧ counted v' = Z.of_nat j
                ∧ delta v' = delta_of (losses v')
                ∧ ((0 < j)%nat →
                   ∃ d, dicts v' = Some d ∧ on_batch mnist last_batch d))
             (λ es e, Forall (training_call mnist L) es)).
    + intros j es v1 Hj (HK & Hn1 & Hn2 & Hn3 & Hl1 & Hc1 & Hd1 & _).
      eapply traced_weaken;
        [apply (epoch_body_traced L opt (0 + Z.of_nat j) v1); [done|congruence|done]|].
      intros es2 [e2|v2] (HK2 & H2); [by shape|].
      destruct (H2 v2 eq_refl) as (Hm1 & Hm2 & Hm3 & (l & Hl2) & Hc2 & Hd2 & Hb2).
      clear H2. split; [by shape|].
      rewrite !n_calls_app, Hl2, length_app, Hn1, Hn2, Hn3, Hm1, Hm2, Hm3, Hl1.
      rewrite <- Hl2. cbn [length].
      repeat split; try done; try lia.
    + rewrite Hl, Hc, Hd. repeat split; try done. lia.
  - intros es [e|v']; [by intros ?|].
    intros (HK & Hn1 & Hn2 & Hn3 & Hl1 & Hc1 & Hd1 & Hb1).
    split; [done|]. by intros ? [= <-].
Qed.

Lemma training_branch_traced (L : Dict * Dict → Prop) (v : Vars) :
  (∀ d, on_batch mnist 0 d → L d) →
  losses v = [] → counted v = 0 → delta v = NInt 1 →
  traced (training_branch mnist v)
         (λ es r, Forall (training_call mnist L) es
                  ∧ ∀ v', r = inr v' →
                          n_calls is_loss es = 15%nat ∧ n_calls is_run es = 15%nat
                          ∧ n_calls is_train es = (15 * Z.to_nat n_iters)%nat
                          ∧ length (losses v') = 15%nat ∧ counted v' = 15
                          ∧ delta v' = delta_of (losses v')
                          ∧ ∃ d, dicts v' = Some d ∧ on_batch mnist last_batch d).
Proof.
  intros HL Hl Hc Hd. unfold training_branch.
  eapply traced_bind; [apply traced_one| |].
  { intros es ? ->. split; [by shape|done]. }
  intros es1 opt ->.
  replace (Z.to_nat repetitions) with 15%nat by reflexivity.
  eapply traced_weaken; [by apply (epochs_traced L opt 15 v)|].
  intros es2 [e2|v2] (HK2 & H2); [split; [by shape|done]|].
  destruct (H2 v2 eq_refl) as (Hn1 & Hn2 & Hn3 & Hl2 & Hc2 & Hd2 & Hb2). clear H2.
  split; [by shape|]. intros v' [= <-].
  rewrite !n_calls_app, Hn1, Hn2, Hn3.
  repeat split; try done. apply Hb2. lia.
Qed.

Lemma last_delta_quiet (v : Vars) :
  0 < counted v < Z.of_nat (length (losses v)) →
  traced (last_delta v) (λ es r, es = [] ∧ ∃ x, r = inr x).
Proof.
  intros Hc. unfold last_delta.
  assert (Hi : ∀ i, 0 ≤ i < Z.of_nat (length (losses v)) →
                    ∃ x, index (losses v) i = inr x).
  { intros i Hi. replace i with (Z.of_nat (Z.to_nat i)) by lia.
    rewrite AdapterFacts.index_nonneg.
    destruct (losses v !! Z.to_nat i) as [x|] eqn:E; [by exists x|].
    apply lookup_ge_None in E. lia. }
  destruct (Hi (counted v)) as [a ->]; [lia|].
  destruct (Hi (counted v - 1)) as [b ->]; [lia|].
  intros w. exists []. simpl. rewrite app_nil_r. eauto.
Qed.

Lemma epilogue_traced (K : Entry → Prop) (v : Vars) (d : Dict * Dict) :
  dicts v = Some d → 0 ≤ counted v ≤ Z.of_nat (length (losses v)) →
  (∀ o, K (c_sim_loss d.1 d.2 "mse", o)) →
  (∀ ls o, K (c_print (PLosses ls), o)) →
  (0 < counted v → ∀ x o, K (c_print (PDelta x), o)) →
  (∀ o, K (c_sim_run (lit_0_001 * float_of_Z steps)%float, o)) →
  traced (epilogue v)
         (λ es r, Forall K es
                  ∧ n_calls is_train es = 0%nat ∧ n_calls is_load es = 0%nat
                  ∧ ∀ v', r = inr v' →
                          n_calls is_loss es = 1%nat ∧ n_calls is_run es = 1%nat
                          ∧ (∃ l, losses v' = losses v ++ [l])
                          ∧ counted v' = counted v + 1
                          ∧ delta v' = delta v ∧ old_delta v' = old_delta v).
Proof.
  intros Hd Hc K1 K2 K3 K4. unfold epilogue, get_dicts. rewrite Hd.
  eapply traced_bind; [apply (traced_ret d (λ es r, es = [] ∧ r = inr d)); done| |].
  { by intros es e [_ ?]. }
  intros es0 ? [-> [= <-]].
  eapply traced_bind; [apply traced_one| |].
  { intros es ? ->. fin; auto; try apply K4. }
  intros es1 l ->.
  eapply traced_bind; [apply traced_one| |].
  { intros es ? ->. fin; auto; try apply K4. }
  intros es2 [] ->.
  eapply traced_bind with
    (R1 := λ es r, Forall K es
                   ∧ n_calls is_loss es = 0%nat ∧ n_calls is_run es = 0%nat
                   ∧ n_calls is_train es = 0%nat ∧ n_calls is_load es = 0%nat).
  { simpl. destruct (0 <? counted v) eqn:Hpos; [|by apply traced_ret].
    apply Z.ltb_lt in Hpos.
    eapply traced_bind; [apply last_delta_quiet| |].
    - simpl. rewrite length_app. simpl. lia.
    - by intros es e [_ [? ?]].
    - intros es3 x [-> _]. eapply traced_weaken; [apply traced_one|].
      intros es [e|[]] ->; fin; by apply K3. }
  { intros es ? (HK & Hn1 & Hn2 & Hn3 & Hn4). fin; auto; try apply K4. }
  intros es3 [] (HK & Hn1 & Hn2 & Hn3 & Hn4).
  eapply traced_bind; [apply traced_one| |].
  { intros es ? ->. fin; auto; try apply K4. }
  intros es4 [] ->. apply traced_ret.
  fin; simplify_eq; auto; try apply K4. by exists l.
Qed.

Lemma traced_new_calls {A} (m : M A) (R : list Entry → result A → Prop) (w : World) :
  traced m R → R (new_calls m w) (m w).2.
Proof.
  intros H. destruct (H w) as (es & Hlog & Hes). unfold new_calls.
  by rewrite Hlog, drop_app_length.
Qed.

Lemma training_body_traced (t0 : float) :
  traced (v ← training_branch mnist (initial_vars t0); epilogue v) (training_run mnist).
Proof.
  eapply traced_bind;
    [apply (training_branch_traced (on_batch mnist 0) (initial_vars t0)); done| |].
  { intros es e (HK & _). exists es, []. rewrite app_nil_r. fin. }
  intros esA v (HKA & HA).
  destruct (HA v eq_refl) as (Hn1 & Hn2 & Hn3 & Hl & Hc & Hd & d & Hdd & Hb).
  clear HA. eapply traced_weaken.
  - apply (epilogue_traced (training_call mnist (on_batch mnist last_batch)) v d Hdd);
      try done; [lia|]. intros o. by apply loss_entry.
  - intros esB r (HKB & Ht & _ & HB). exists esA, esB.
    do 4 (split; [done|]). intros v' Hv'.
    destruct (HB v' Hv') as (Hm1 & Hm2 & (l & Hl') & _ & Hd' & _).
    do 5 (split; [done|]).
    exists (losses v), l. repeat split; try done. congruence.
Qed.

Lemma training_cell_traced : traced (training_cell mnist false) (training_run mnist).
Proof.
  unfold training_cell.
  eapply traced_bind; [apply traced_one| |].
  { intros es e ->. exists [(c_time, Some e)], []. fin. }
  intros es1 t0 ->.
  eapply traced_bind; [apply traced_one| |].
  { intros es e ->.
    exists ([(c_time, None)] ++ [(c_Simulator steps n_examples, Some e)]), [].
    rewrite app_nil_r. fin. }
  intros es2 [] ->.
  apply (traced_finally _ c_Simulator_exit (λ fs ext, (fs, lib_simulator_close ext))
           (training_run mnist)); [apply training_body_traced|].
  intros es r (esA & esB & -> & HKA & HKB & Ht & H).
  exists ([(c_time, None)] ++ [(c_Simulator steps n_examples, None)] ++ esA),
         (esB ++ [(c_Simulator_exit, None)]).
  split; [by rewrite <- !app_assoc|].
  split; [by shape|]. split; [by shape|].
  split; [by rewrite n_calls_app, Ht|].
  intros v Hv. destruct (H v Hv) as (Hn1 & Hn2 & Hn3 & Hn4 & Hn5 & Hls).
  revert Hn3. generalize (15 * Z.to_nat n_iters)%nat. intros N Hn3.
  count. rewrite Hn1, Hn2, Hn3, Hn4, Hn5. by repeat split.
Qed.

Lemma gen_data_loading :
  traced (gen_data mnist steps n_examples 0)
         (λ es r, Forall (loading_call mnist) es
                  ∧ n_calls is_loss es = 0%nat ∧ n_calls is_run es = 0%nat
                  ∧ n_calls is_load es = 0%nat
                  ∧ ∀ d, r = inr d → on_batch mnist 0 d).
Proof.
  eapply traced_weaken; [apply gen_data_traced|].
  intros es r (HK & Hr & _).
  assert (Hn : ∀ p, (∀ imgs pt t, p (c_PresentInput_run imgs pt t) = false) →
                    (∀ l, p (c_asarray l) = false) → n_calls p es = 0%nat).
  { intros p Hp1 Hp2. apply n_calls_none.
    eapply Forall_impl; [apply HK|]. intros [c o]. unfold batch_call. simpl.
    by destruct c. }
  repeat split; try (by apply Hn).
  - eapply Forall_impl; [apply HK|]. intros [c o]. unfold batch_call, loading_call.
    simpl. by destruct c.
  - intros d ->. unfold on_batch.
    destruct (batch mnist steps n_examples 0) as [e|b]; [done|].
    exists b. split; [done|]. congruence.
Qed.

Lemma download_params_traced :
  traced download_params
         (λ es r, Forall (loading_call mnist) es
                  ∧ n_calls is_loss es = 0%nat ∧ n_calls is_run es = 0%nat
                  ∧ n_calls is_load es = 0%nat).
Proof.
  unfold download_params.
  eapply traced_bind; [apply traced_one| |].
  { intros es ? ->. fin. }
  intros es1 [] ->.
  eapply traced_bind; [apply traced_one| |].
  { intros es ? ->. fin. }
  intros es2 f ->.
  eapply traced_bind.
  { apply (traced_finally _ c_ZipFile_exit (λ fs ext, (fs, ext))
             (λ es r, es = [(c_extractall param_dir, outcome r)])
             (λ es r, es = [(c_extractall param_dir, outcome r); (c_ZipFile_exit, None)])).
    - apply traced_one.
    - by intros es r ->. }
  { intros es ? ->. fin. }
  intros es3 [] ->.
  eapply traced_weaken; [apply traced_one|].
  intros es r ->. fin.
Qed.

Lemma fetch_params_traced :
  traced fetch_params
         (λ es r, Forall (loading_call mnist) es
                  ∧ n_calls is_loss es = 0%nat ∧ n_calls is_run es = 0%nat
                  ∧ n_calls is_load es = 0%nat).
Proof.
  unfold fetch_params.
  eapply traced_bind; [apply traced_one| |].
  { intros es ? ->. fin; try (by left); try (by right). }
  intros es1 ex1 ->.
  eapply traced_bind with
    (R1 := λ es r, Forall (loading_call mnist) es
                   ∧ n_calls is_loss es = 0%nat ∧ n_calls is_run es = 0%nat
                   ∧ n_calls is_load es = 0%nat).
  { destruct ex1; simpl; [by apply traced_ret|].
    eapply traced_weaken; [apply traced_one|]. intros es r ->. fin. }
  { intros es ? (HK & Hn1 & Hn2 & Hn3). fin; try (by left); try (by right). }
  intros es2 [] (HK2 & Hn1 & Hn2 & Hn3).
  eapply traced_bind; [apply traced_one| |].
  { intros es ? ->. fin; try (by left); try (by right). }
  intros es3 ex2 ->.
  eapply traced_weaken with
    (R := λ es r, Forall (loading_call mnist) es
                  ∧ n_calls is_loss es = 0%nat ∧ n_calls is_run es = 0%nat
                  ∧ n_calls is_load es = 0%nat).
  { destruct ex2; simpl; [by apply traced_ret|]. apply download_params_traced. }
  intros es r (HK & Hm1 & Hm2 & Hm3). fin; try (by left); try (by right).
Qed.

Lemma loading_branch_traced (v : Vars) :
  losses v = [] →
  traced (loading_branch mnist v)
         (λ es r, Forall (loading_call mnist) es
                  ∧ ∀ v', r = inr v' →
                          n_calls is_loss es = 1%nat ∧ n_calls is_run es = 1%nat
                          ∧ n_calls is_load es = 1%nat
                          ∧ length (losses v') = 1%nat ∧ counted v' = counted v
                          ∧ delta v' = delta v ∧ old_delta v' = old_delta v
                          ∧ ∃ d, dicts v' = Some d ∧ on_batch mnist 0 d).
Proof.
  intros Hl. unfold loading_branch.
  eapply traced_bind; [apply gen_data_loading| |].
  { intros es ? (HK & _). fin. }
  intros es1 d (HK1 & Hl1 & Hr1 & Ht1 & Hd1). specialize (Hd1 d eq_refl).
  assert (Hloss : ∀ o, loading_call mnist (c_sim_loss d.1 d.2 "mse", o)).
  { intros o. split; [done|]. by destruct d. }
  eapply traced_bind; [apply traced_one| |].
  { intros es ? ->. fin. }
  intros es2 l ->.
  eapply traced_bind; [apply traced_one| |].
  { intros es ? ->. fin. }
  intros es3 [] ->.
  eapply traced_bind; [apply fetch_params_traced| |].
  { intros es ? (HK & _). fin. }
  intros es4 [] (HK4 & Hl4 & Hr4 & Ht4).
  eapply traced_bind; [apply traced_one| |].
  { intros es ? ->. fin. }
  intros es5 [] ->. apply traced_ret.
  fin; simplify_eq; try done.
  - by rewrite Hl.
  - by exists d.
Qed.

Lemma loading_body_traced (t0 : float) :
  traced (v ← loading_branch mnist (initial_vars t0); epilogue v)
         (λ es r, Forall (loading_call mnist) es
                  ∧ ∀ v, r = inr v →
                         n_calls is_loss es = 2%nat ∧ n_calls is_run es = 2%nat
                         ∧ n_calls is_load es = 1%nat
                         ∧ length (losses v) = 2%nat
                         ∧ delta v = NInt 1 ∧ old_delta v = None).
Proof.
  eapply traced_bind; [apply (loading_branch_traced (initial_vars t0)); done| |].
  { intros es e (HK & _). fin. }
  intros esA v (HKA & HA).
  destruct (HA v eq_refl) as (Hn1 & Hn2 & Hn3 & Hl & Hc & Hd & Ho & d & Hdd & Hb).
  clear HA. simpl in Hc, Hd, Ho. eapply traced_weaken.
  - apply (epilogue_traced (loading_call mnist) v d Hdd); try done; [lia| |lia].
    intros o. split; [done|]. by destruct d.
  - intros esB r (HKB & _ & Hm3 & HB).
    split; [by shape|]. intros v' Hv'.
    destruct (HB v' Hv') as (Hm1 & Hm2 & (l & Hl') & _ & Hd' & Ho').
    rewrite !n_calls_app, Hn1, Hn2, Hn3, Hm1, Hm2, Hm3, Hl', length_app, Hl.
    repeat split; congruence.
Qed.

Lemma loading_cell_traced :
  traced (training_cell mnist true)
         (λ es r, Forall (loading_call mnist) es
                  ∧ ∀ v, r = inr v →
                         n_calls is_loss es = 2%nat ∧ n_calls is_run es = 2%nat
                         ∧ n_calls is_load es = 1%nat
                         ∧ length (losses v) = 2%nat
                         ∧ delta v = NInt 1 ∧ old_delta v = None).
Proof.
  unfold training_cell.
  eapply traced_bind; [apply traced_one| |].
  { intros es e ->. fin. }
  intros es1 t0 ->.
  eapply traced_bind; [apply traced_one| |].
  { intros es e ->. fin. }
  intros es2 [] ->.
  eapply traced_finally; [apply loading_body_traced|].
  intros es r (HK & H). split; [by shape|].
  intros v Hv. destruct (H v Hv) as (Hn1 & Hn2 & Hn3 & Hlen & Hd & Ho).
  count. rewrite Hn1, Hn2, Hn3. repeat split; try done; lia.
Qed.

(** however the cell goes, the simulator that was entered is left *)
Lemma cell_shape_traced (loading : bool) :
  traced (training_cell mnist loading)
         (λ es r, ∃ o body,
                    es = (c_time, None) :: (c_Simulator steps n_examples, o) :: body
                    ∧ match o with
                      | Some e => body = [] ∧ r = inl e
                      | None => ∃ es', body = es' ++ [(c_Simulator_exit, None)]
                      end).
Proof.
  unfold training_cell.
  eapply traced_bind with (R1 := λ es r, es = [(c_time, None)] ∧ ∃ t, r = inr t).
  { apply traced_call. intros fs ext. destruct (lib_time ext). simpl. eauto. }
  { by intros es e [_ [? ?]]. }
  intros es1 t0 [-> _].
  eapply traced_bind; [apply traced_one| |].
  { intros es e ->. by exists (Some e), []. }
  intros es2 [] ->.
  eapply traced_finally with (R := λ _ _, True).
  - destruct loading.
    + eapply traced_weaken; [apply loading_body_traced|done].
    + eapply traced_weaken; [apply training_body_traced|done].
  - intros es r _. exists None, (es ++ [(c_Simulator_exit, None)]).
    split; [done|]. by exists es.
Qed.

End Training.

End TrainingFacts.

(** ** Whole runs of the training cell *)

Module RunFacts.
Import Py OS Autoencoder Spec Trace Plot TraceFacts TrainingFacts.

Section Run.
Context {B : Backend} (mnist : Dataset).

Lemma training_call_mono (L L' : Dict * Dict → Prop) (en : Entry) :
  (∀ d, L d → L' d) → training_call mnist L en → training_call mnist L' en.
Proof.
  intros HL. unfold training_call. destruct en as [c o]. simpl.
  destruct c; try done. intros [? ?]. split; [done|]. by apply HL.
Qed.

(** A run of the cell with [LOADING] off, whether it completes or stops at
    an exception, makes no file and no network call and loads no
    parameters: it only generates batches, evaluates losses, runs and
    trains the simulator, reads the clock and prints.  Every
    [PresentInput] run is given the training images from a position below
    64*859 = 54976 on, every training step is two epochs on one of the 859
    batches of 64, every loss is on the first or the last of them, and the
    files are as they were. *)
Theorem training_run_stays_local (w : World) :
  Forall (training_call mnist (λ d, on_batch mnist 0 d ∨ on_batch mnist last_batch d))
         (new_calls (training_cell mnist false) w)
  ∧ w_fs (training_cell mnist false w).1 = w_fs w.
Proof.
  split; [|apply DownloadFacts.training_cell_keeps].
  destruct (traced_new_calls _ _ w (training_cell_traced mnist))
    as (esA & esB & -> & HA & HB & _).
  apply Forall_app. split.
  - eapply Forall_impl; [apply HA|]. intros en. apply training_call_mono. by left.
  - eapply Forall_impl; [apply HB|]. intros en. apply training_call_mono. by right.
Qed.

(** A completed run with [LOADING] off has made 16 loss evaluations and 16
    simulator runs, one per entry of [losses], and [repetitions * n_iters]
    = 12885 training steps. *)
Theorem training_run_counts (w : World) (v : Vars) :
  (training_cell mnist false w).2 = inr v →
  n_calls is_loss (new_calls (training_cell mnist false) w) = 16%nat
  ∧ n_calls is_run (new_calls (training_cell mnist false) w) = length (losses v)
  ∧ length (losses v) = 16%nat
  ∧ n_calls is_train (new_calls (training_cell mnist false) w)
    = Z.to_nat (repetitions * n_iters)
  ∧ repetitions * n_iters = 12885.
Proof.
  intros Hv.
  destruct (traced_new_calls _ _ w (training_cell_traced mnist))
    as (esA & esB & -> & _ & _ & Ht & H).
  destruct (H v Hv) as (Hn1 & Hn2 & Hn3 & Hn4 & Hn5 & ls & l & Hls & Hlen & _).
  rewrite !n_calls_app, Hn1, Hn2, Hn3, Hn4, Hn5, Ht, Hls, length_app, Hlen.
  rewrite n_iters_value. by vm_compute.
Qed.

(** In a completed run with [LOADING] off the first 15 losses are all
    evaluated on the first batch, the images from position 0 on, so they
    measure the progress on one batch; the 16th, after the loop, is
    evaluated on what the loop generated last, the batch at position
    64*858 = 54912. *)
Theorem final_loss_on_last_batch (w : World) (v : Vars) :
  (training_cell mnist false w).2 = inr v →
  last_batch = 54912
  ∧ ∃ esA esB,
      new_calls (training_cell mnist false) w = esA ++ esB
      ∧ n_calls is_loss esA = 15%nat
      ∧ Forall (training_call mnist (on_batch mnist 0)) esA
      ∧ n_calls is_loss esB = 1%nat
      ∧ Forall (training_call mnist (on_batch mnist last_batch)) esB.
Proof.
  intros Hv. split; [by vm_compute|].
  destruct (traced_new_calls _ _ w (training_cell_traced mnist))
    as (esA & esB & E & HA & HB & Ht & H).
  destruct (H v Hv) as (Hn1 & _ & _ & Hn4 & _).
  by exists esA, esB.
Qed.

(** After a completed run with [LOADING] off [delta] is the difference of
    the last two losses of the loop, [losses[14] - losses[13]]: the loss
    appended after the loop is printed in a difference but never enters
    [delta]. *)
Theorem delta_ignores_final_loss (w : World) (v : Vars) :
  (training_cell mnist false w).2 = inr v →
  ∃ ls a b c, length ls = 13%nat ∧ losses v = ls ++ [a; b; c]
              ∧ delta v = NLoss (loss_sub b a).
Proof.
  intros Hv.
  destruct (traced_new_calls _ _ w (training_cell_traced mnist))
    as (esA & esB & _ & _ & _ & _ & H).
  destruct (H v Hv) as (_ & _ & _ & _ & _ & ls & c & Hls & Hlen & Hd).
  destruct (rev ls) as [|b [|a r]] eqn:Er;
    try (apply (f_equal length) in Er; rewrite length_rev, Hlen in Er; done).
  assert (E : ls = rev r ++ [a; b]).
  { rewrite <- (rev_involutive ls), Er. simpl. by rewrite <- app_assoc. }
  exists (rev r), a, b, c. split; [|split].
  - apply (f_equal length) in Er. rewrite length_rev, Hlen in Er. simpl in Er.
    rewrite length_rev. lia.
  - by rewrite Hls, E, <- app_assoc.
  - rewrite Hd. unfold delta_of. by rewrite Er.
Qed.

(** A run of the cell with [LOADING] on, whether it completes or not,
    never trains, makes no optimizer and prints no progress or delta;
    every [PresentInput] run is given the training images from one of the
    positions 0..63 on, and every loss is on that first batch; the only
    paths it tests, creates, writes, unpacks
    to, removes or loads are the directory, the index file, the archive
    and the parameter path, and the only address it fetches is the
    weights'. *)
Theorem loading_run_never_trains (w : World) :
  Forall (loading_call mnist) (new_calls (training_cell mnist true) w)
  ∧ n_calls is_train (new_calls (training_cell mnist true) w) = 0%nat.
Proof.
  destruct (traced_new_calls _ _ w (loading_cell_traced mnist)) as (HK & _).
  split; [done|]. apply n_calls_none.
  eapply Forall_impl; [apply HK|]. intros [c o]. unfold loading_call. simpl.
  by destruct c.
Qed.

(** A completed run with [LOADING] on has evaluated two losses, before and
    after loading, has run the simulator twice, once per entry of
    [losses], and has loaded the parameters once; [delta] is still the
    initial 1 and [old_delta] was never bound. *)
Theorem loading_run_counts (w : World) (v : Vars) :
  (training_cell mnist true w).2 = inr v →
  n_calls is_loss (new_calls (training_cell mnist true) w) = 2%nat
  ∧ n_calls is_run (new_calls (training_cell mnist true) w) = 2%nat
  ∧ n_calls is_load (new_calls (training_cell mnist true) w) = 1%nat
  ∧ delta v = NInt 1 ∧ old_delta v = None.
Proof.
  intros Hv.
  destruct (traced_new_calls _ _ w (loading_cell_traced mnist)) as (_ & H).
  destruct (H v Hv) as (? & ? & ? & _ & ? & ?). done.
Qed.

(** The [with] block: every run of the cell, in either mode, starts with
    the clock and the simulator; if the simulator could not be made the run
    ends there with its exception, and otherwise the last call of the run
    leaves the simulator, whether the block returned or raised. *)
Theorem simulator_always_closed (loading : bool) (w : World) :
  ∃ o body,
    new_calls (training_cell mnist loading) w
    = (c_time, None) :: (c_Simulator steps n_examples, o) :: body
    ∧ match o with
      | Some e => body = [] ∧ (training_cell mnist loading w).2 = inl e
      | None => ∃ es, body = es ++ [(c_Simulator_exit, None)]
      end.
Proof. apply (traced_new_calls _ _ w (cell_shape_traced mnist loading)). Qed.

(** With at least 64*859 = 54976 training images, as MNIST has, no run
    with [LOADING] off reads past their end: every [PresentInput] is given
    a non-empty list of images. *)
Theorem training_reads_within_the_images (w : World) :
  n_examples * n_iters ≤ Z.of_nat (length (train_images mnist)) →
  Forall (λ en, ∀ imgs pt t, en.1 = c_PresentInput_run imgs pt t → imgs ≠ [])
         (new_calls (training_cell mnist false) w).
Proof.
  intros Hlen.
  destruct (traced_new_calls _ _ w (training_cell_traced mnist))
    as (esA & esB & -> & HA & HB & _).
  assert (H : ∀ L en, training_call mnist L en →
                      ∀ imgs pt t, en.1 = c_PresentInput_run imgs pt t → imgs ≠ []).
  { intros L [c o] Hc imgs pt t Heq. simpl in Heq. subst c.
    destruct Hc as (_ & _ & p & Hp & ->). unfold slice_from.
    destruct (p <? 0) eqn:E; [apply Z.ltb_lt in E; lia|].
    intros Hnil. apply (f_equal length) in Hnil. rewrite length_drop in Hnil.
    simpl in Hnil. lia. }
  apply Forall_app. split; eapply Forall_impl; eauto.
Qed.

Lemma plot_rows_length (ls : list Loss) (n : nat) :
  length ls = n → plot_rows ls = (λ k, steps * Z.of_nat k - 1) <$> seq 1 n.
Proof.
  intros <-. unfold plot_rows, seqZ. rewrite Nat2Z.id, <- list_fmap_compose.
  rewrite <- (fmap_S_seq 0), <- list_fmap_compose.
  apply list_fmap_ext. intros _ k _. simpl. unfold plot_row. lia.
Qed.

(** After a completed run of the cell, in either mode, the rows the plot
    cell reads are the last rows of the successive blocks of [steps] rows,
    one block per call of [sim.run] of the run: row [steps*k - 1] for the
    [k]-th call, none left out and none beyond the last call. *)
Theorem plot_reads_last_row_of_each_run (loading : bool) (w : World) (v : Vars) :
  (training_cell mnist loading w).2 = inr v →
  plot_rows (losses v)
  = (λ k, steps * Z.of_nat k - 1)
      <$> seq 1 (n_calls is_run (new_calls (training_cell mnist loading) w)).
Proof.
  intros Hv. apply plot_rows_length. destruct loading.
  - destruct (traced_new_calls _ _ w (loading_cell_traced mnist)) as (_ & H).
    destruct (H v Hv) as (_ & -> & _ & -> & _). done.
  - destruct (traced_new_calls _ _ w (training_cell_traced mnist))
      as (esA & esB & -> & _ & _ & _ & H).
    destruct (H v Hv) as (_ & Hn2 & _ & _ & Hn5 & ls & l & -> & Hlen & _).
    rewrite n_calls_app, Hn2, Hn5, length_app, Hlen. done.
Qed.

End Run.

End RunFacts.

(** ** Lines 207-216: what the download leaves on disk *)

Module FetchFacts.
Import Py OS Autoencoder Spec SpecFacts DownloadFacts.

Lemma append_inj_r (a b c : string) : a +:+ b = a +:+ c → b = c.
Proof. induction a as [|x a IH]; simpl; [done|]. intros [= H]. by apply IH. Qed.

Lemma path_join_inj (dir m m' : string) : path_join dir m = path_join dir m' → m = m'.
Proof. unfold path_join. intros H. by do 2 apply append_inj_r in H. Qed.

Lemma param_index_member : param_index = path_join param_dir "Nengo-Autoencoder.index".
Proof. reflexivity. Qed.

Lemma write_file_inr (fs fs' : Fs) (p : string) (f : File) :
  write_file fs p f = (fs', inr tt) →
  fs' = <[p := f]> fs ∧ fs !! p ≠ Some Dir ∧ parent_ok fs p = true.
Proof.
  unfold write_file. destruct (fs !! p) as [[]|] eqn:E; try done;
    destruct (parent_ok fs p); try done; by intros [= <-].
Qed.

(** a completed [extractall] has written every member, and nothing else *)
Lemma extractall_inr (dir : string) (ms : list string) :
  ∀ fs fs', extractall fs dir ms = (fs', inr tt) →
            (∀ m, m ∈ ms → fs' !! path_join dir m = Some Data)
            ∧ (∀ p, (∀ m, m ∈ ms → p ≠ path_join dir m) → fs' !! p = fs !! p).
Proof.
  induction ms as [|m ms IH]; intros fs fs'; simpl.
  { intros [= <-]. split; [|done]. intros m Hm. by apply elem_of_nil in Hm. }
  destruct (write_file fs (path_join dir m) Data) as [fs1 [e|[]]] eqn:Ew; [done|].
  intros Hx. apply write_file_inr in Ew as (-> & _ & _).
  destruct (IH _ _ Hx) as [H1 H2]. split.
  - intros m' Hm'. apply elem_of_cons in Hm' as [->|Hm']; [|by apply H1].
    destruct (decide (m ∈ ms)) as [Hin|Hin]; [by apply H1|].
    rewrite H2; [by rewrite lookup_insert_eq|].
    intros m' Hm' Heq. apply path_join_inj in Heq. by subst.
  - intros p Hp. rewrite H2.
    + rewrite lookup_insert_ne; [done|]. intros Heq. by apply (Hp m); [left|].
    + intros m' Hm'. apply Hp. by right.
Qed.

Section Fetch.
Context {B : Backend}.

(** what a completed download has done to the files *)
Lemma download_params_inr (w w' : World) :
  download_params w = (w', inr tt) →
  ∃ ms, (lib_fetch (w_ext w) weights_url).2 = inr (Archive ms)
        ∧ parent_ok (w_fs w) param_zip_path = true
        ∧ w_fs w' !! param_zip_path = None
        ∧ (∀ m, m ∈ ms → path_join param_dir m ≠ param_zip_path →
                w_fs w' !! path_join param_dir m = Some Data)
        ∧ (∀ p, p ≠ param_zip_path → (∀ m, m ∈ ms → p ≠ path_join param_dir m) →
                w_fs w' !! p = w_fs w !! p).
Proof.
  destruct w as [fs ext log].
  unfold download_params, urlretrieve, ZipFile, ZipFile_extractall, ZipFile_exit,
    os_remove, finally.
  rewrite bind_run, call_run. simpl.
  destruct (lib_fetch ext weights_url) as [ext1 [e|f]]; simpl; [done|].
  destruct (write_file fs param_zip_path f) as [fs1 [e|[]]] eqn:Ew; simpl; [done|].
  apply write_file_inr in Ew as (-> & Hnd & Hpar).
  rewrite bind_run, call_run. simpl.
  unfold zip_open. rewrite lookup_insert_eq.
  destruct f as [|ms|]; simpl; try done.
  rewrite bind_run, call_run. simpl.
  destruct (extractall (<[param_zip_path:=Archive ms]> fs) param_dir ms)
    as [fs2 [e|[]]] eqn:Ex; simpl; [done|].
  rewrite call_run. simpl.
  destruct (extractall_inr _ _ _ _ Ex) as [H1 H2].
  unfold remove. destruct (fs2 !! param_zip_path) as [[]|] eqn:Ez; simpl; try done.
  all: intros [= <-]; simpl; exists ms.
  all: split; [done|].
  all: split; [done|].
  all: split; [apply lookup_delete_eq|].
  all: split.
  all: try (intros m Hm Hne; rewrite lookup_delete_ne; [by apply H1|done]).
  all: intros p Hp Hm; rewrite lookup_delete_ne; [|done].
  all: rewrite H2; [|done].
  all: by rewrite lookup_insert_ne.
Qed.

Lemma path_join_ne_dir (dir m : string) : dir ≠ path_join dir m.
Proof. unfold path_join. induction dir as [|x a IH]; simpl; [done|]. by intros [= H]. Qed.

(** the two existence tests and the [mkdir] of lines 209-211, up to the
    download *)
Lemma fetch_params_inr (w w' : World) :
  w_fs w !! param_index = None → fetch_params w = (w', inr tt) →
  ∃ w1, download_params w1 = (w', inr tt) ∧ w_ext w1 = w_ext w
        ∧ w_fs w1 !! param_index = None
        ∧ (∀ p, p ≠ param_dir → w_fs w1 !! p = w_fs w !! p).
Proof.
  intros Hi. destruct w as [fs ext log]. simpl in Hi.
  unfold fetch_params, os_path_exists, os_mkdir.
  rewrite bind_run, call_run. simpl.
  destruct (path_exists fs param_dir) eqn:Ed; simpl.
  - rewrite bind_run. simpl. rewrite bind_run, call_run. simpl.
    unfold path_exists at 1. rewrite Hi. simpl.
    intros E. eexists. split; [exact E|]. done.
  - rewrite bind_run, call_run. simpl.
    unfold mkdir. rewrite Ed.
    replace (parent_ok fs param_dir) with true by reflexivity. simpl.
    rewrite bind_run, call_run. simpl.
    unfold path_exists at 1.
    rewrite lookup_insert_ne by apply param_dir_ne_index. rewrite Hi. simpl.
    intros E. eexists. split; [exact E|]. simpl.
    repeat split; [by rewrite lookup_insert_ne by apply param_dir_ne_index|].
    intros p Hp. by rewrite lookup_insert_ne.
Qed.


(** When what was fetched is a regular file that is no zip archive, lines
    213-216 raise BadZipFile at [zipfile.ZipFile]; [os.remove] is never
    reached, so the fetched file stays at the archive's path, and nothing
    else has changed. *)
Theorem bad_download_is_left_behind (w : World) :
  (lib_fetch (w_ext w) weights_url).2 = inr Data →
  w_fs w !! param_dir = Some Dir → w_fs w !! param_zip_path ≠ Some Dir →
  (download_params w).2 = inl (Exn "BadZipFile" param_zip_path)
  ∧ w_fs (download_params w).1 = <[param_zip_path := Data]> (w_fs w)
  ∧ Forall (λ en, ∀ p, en.1 ≠ c_remove p) (new_calls download_params w).
Proof.
  destruct w as [fs ext log]. simpl. intros Hf Hd Hz.
  unfold new_calls, download_params, urlretrieve, ZipFile.
  rewrite bind_run, call_run. simpl.
  destruct (lib_fetch ext weights_url) as [ext1 [e|f]]; simpl in *; [done|].
  injection Hf as ->.
  assert (Ew : write_file fs param_zip_path Data
               = (<[param_zip_path := Data]> fs, inr tt)).
  { unfold write_file, parent_ok.
    replace (dirname param_zip_path) with param_dir by reflexivity.
    rewrite Hd. simpl. by destruct (fs !! param_zip_path) as [[]|]. }
  rewrite Ew. simpl. rewrite bind_run, call_run. simpl.
  unfold zip_open. rewrite lookup_insert_eq. simpl.
  split; [done|]. split; [done|].
  rewrite <- app_assoc, drop_app_length.
  repeat (apply Forall_cons; split; [done|]). by apply Forall_nil.
Qed.

End Fetch.

End FetchFacts.

(** ** The facts above on the demonstration backend *)

Module WorldsFacts.
Import Py OS Autoencoder Spec Trace Plot Demo Worlds.
Import AdapterFacts BatchFacts RunFacts FetchFacts.

Lemma pre_build_fails_half_way_witness :
  pre_build new_Adapter [64; 128] [784]
  = ({| n_mini := Some 64; size_in := Some 128; size_out := None |}, inl IndexError).
Proof.
  apply (pre_build_fails_half_way new_Adapter [64; 128] [784] 64 128 []);
    [reflexivity|simpl; lia].
Defined.

Lemma Decoder_after_pre_build_witness :
  ∃ n, [64; 784] !! 1%nat = Some n
       ∧ Decoder_call (B := backend) decoder 0%float [128] fresh
         = two_dense_layers [128] 256 n fresh.
Proof.
  apply (Decoder_after_pre_build (B := backend) new_Adapter decoder [64; 128] [64; 784]
           0%float [128] fresh).
  reflexivity.
Defined.

Lemma Decoder_before_pre_build_witness :
  (Decoder_call (B := backend) new_Adapter 0%float [128] fresh).2
  = inl (AttributeError "size_out").
Proof.
  destruct (Decoder_before_pre_build (B := backend) new_Adapter 0%float [128] fresh
              eq_refl) as (_ & H & _).
  exact H.
Defined.


Lemma gen_data_empty_batch_witness :
  (gen_data mnist 10 0 3 fresh).2 = inr (pair_of (lib_asarray []))
  ∧ new_calls (gen_data mnist 10 0 3) fresh = [(c_asarray [], None); (c_asarray [], None)].
Proof. apply (gen_data_empty_batch mnist 10 0 3 fresh). lia. Defined.

Lemma training_run_counts_witness :
  ∃ v, (training_cell mnist false fresh).2 = inr v
       ∧ n_calls is_train (new_calls (training_cell mnist false) fresh)
         = Z.to_nat (repetitions * n_iters).
Proof.
  destruct (AutoencoderFacts.training_cell_returns mnist fresh DemoFacts.demo_reliable)
    as (w' & v & E & _).
  exists v.
  assert (H : (training_cell mnist false fresh).2 = inr v) by (by rewrite E).
  split; [exact H|].
  exact (proj1 (proj2 (proj2 (proj2 (training_run_counts mnist fresh v H))))).
Defined.

Lemma final_loss_on_last_batch_witness :
  ∃ v, (training_cell mnist false fresh).2 = inr v
       ∧ ∃ esA esB,
           new_calls (training_cell mnist false) fresh = esA ++ esB
           ∧ n_calls is_loss esA = 15%nat
           ∧ Forall (training_call mnist (on_batch mnist 0)) esA
           ∧ n_calls is_loss esB = 1%nat
           ∧ Forall (training_call mnist (on_batch mnist last_batch)) esB.
Proof.
  destruct (AutoencoderFacts.training_cell_returns mnist fresh DemoFacts.demo_reliable)
    as (w' & v & E & _).
  exists v.
  assert (H : (training_cell mnist false fresh).2 = inr v) by (by rewrite E).
  split; [exact H|].
  exact (proj2 (final_loss_on_last_batch mnist fresh v H)).
Defined.

Lemma delta_ignores_final_loss_witness :
  ∃ v, (training_cell mnist false fresh).2 = inr v
       ∧ ∃ ls a b c, length ls = 13%nat ∧ losses v = ls ++ [a; b; c]
                     ∧ delta v = NLoss (loss_sub b a).
Proof.
  destruct (AutoencoderFacts.training_cell_returns mnist fresh DemoFacts.demo_reliable)
    as (w' & v & E & _).
  exists v.
  assert (H : (training_cell mnist false fresh).2 = inr v) by (by rewrite E).
  split; [exact H|].
  exact (delta_ignores_final_loss mnist fresh v H).
Defined.

Lemma loading_run_counts_witness :
  n_calls is_loss (new_calls (training_cell mnist true) fresh) = 2%nat
  ∧ n_calls is_run (new_calls (training_cell mnist true) fresh) = 2%nat
  ∧ n_calls is_load (new_calls (training_cell mnist true) fresh) = 1%nat
  ∧ delta first_vars = NInt 1 ∧ old_delta first_vars = None.
Proof.
  apply (loading_run_counts mnist fresh first_vars).
  vm_compute. reflexivity.
Defined.

Lemma plot_reads_last_row_of_each_run_witness :
  plot_rows (losses first_vars)
  = (λ k, steps * Z.of_nat k - 1)
      <$> seq 1 (n_calls is_run (new_calls (training_cell mnist true) fresh)).
Proof.
  apply (plot_reads_last_row_of_each_run mnist true fresh first_vars).
  vm_compute. reflexivity.
Defined.

Lemma full_mnist_length : length (train_images full_mnist) = Z.to_nat 55000.
Proof. apply length_replicate. Qed.

Lemma training_reads_within_the_images_witness :
  Forall (λ en, ∀ imgs pt t, en.1 = c_PresentInput_run imgs pt t → imgs ≠ [])
         (new_calls (training_cell full_mnist false) fresh).
Proof.
  apply (training_reads_within_the_images full_mnist fresh).
  rewrite full_mnist_length, Z2Nat.id by lia. by vm_compute.
Defined.


Lemma bad_download_is_left_behind_witness :
  (download_params (B := garbled) garbled_dir).2
  = inl (Exn "BadZipFile" param_zip_path)
  ∧ w_fs (download_params (B := garbled) garbled_dir).1
    = <[param_zip_path := Data]> (w_fs garbled_dir)
  ∧ Forall (λ en, ∀ p, en.1 ≠ c_remove p)
           (new_calls (download_params (B := garbled)) garbled_dir).
Proof.
  apply (bad_download_is_left_behind (B := garbled) garbled_dir);
    [reflexivity|reflexivity|by vm_compute].
Defined.

End WorldsFacts.
